(** * PromptStudio: the prompt engine (prompt_engine.py)

    A shallow embedding of the engine's five stages (generate, test, score,
    refine, report) and of the orchestrator [run_studio], with the
    properties of the specification proved, amended or refuted on it.

    Modelling conventions.
    - A Python [str] is a [string]; a character is a code point below 256,
      classified as Python classifies it (Latin-1 range of Unicode).
    - A Python [int] is a [Z].
    - The model client, the model registry and the clock are collaborators
      that are not part of the engine: they are the fields of the class
      [Collaborators], and calls to them thread an explicit world.
    - An exception is [Raise msg], where [msg] is [str(e)]; only exceptions
      derived from [Exception] are modelled.
    - Logging is not modelled. *)

From Stdlib Require Import ZArith QArith List Bool Ascii String Lia ListSet.
From Stdlib Require Import Numbers.DecimalString.
Import ListNotations.

Open Scope bool_scope.
Open Scope string_scope.
Open Scope Z_scope.

(** ** Python strings *)

Module PyStr.

(** [str.isspace] on one character. *)
Definition isspace (c : ascii) : bool :=
  let n := N_of_ascii c in
  (((9 <=? n) && (n <=? 13)) || ((28 <=? n) && (n <=? 32))
   || (n =? 133) || (n =? 160))%N.

(** The class [\w] of [re] on a [str] pattern: alphanumeric or underscore. *)
Definition isword (c : ascii) : bool :=
  let n := N_of_ascii c in
  (((48 <=? n) && (n <=? 57)) || ((65 <=? n) && (n <=? 90))
   || ((97 <=? n) && (n <=? 122)) || (n =? 95)
   || (n =? 170) || (n =? 178) || (n =? 179) || (n =? 181)
   || (n =? 185) || (n =? 186) || ((188 <=? n) && (n <=? 190))
   || ((192 <=? n) && (n <=? 214)) || ((216 <=? n) && (n <=? 246))
   || (248 <=? n))%N.

(** [str.lower] on one character. *)
Definition lower_char (c : ascii) : ascii :=
  let n := N_of_ascii c in
  if (((65 <=? n) && (n <=? 90)) || ((192 <=? n) && (n <=? 214))
      || ((216 <=? n) && (n <=? 222)))%N
  then ascii_of_N (n + 32) else c.

Fixpoint lower (s : string) : string :=
  match s with
  | "" => ""
  | String c s' => String (lower_char c) (lower s')
  end.

Fixpoint take (n : nat) (s : string) : string :=
  match n, s with
  | S n', String c s' => String c (take n' s')
  | _, _ => ""
  end.

Fixpoint drop (n : nat) (s : string) : string :=
  match n, s with
  | S n', String _ s' => drop n' s'
  | _, _ => s
  end.

Definition len (s : string) : Z := Z.of_nat (String.length s).

(** How a slice bound is read: a negative bound counts from the end, and
    every bound is clipped to the string. *)
Definition slice_bound (n i : Z) : Z :=
  if i <? 0 then Z.max 0 (i + n) else Z.min i n.

(** [s[start:stop]]. *)
Definition slice (s : string) (start stop : Z) : string :=
  let a := slice_bound (len s) start in
  let b := slice_bound (len s) stop in
  take (Z.to_nat (b - a)) (drop (Z.to_nat a) s).

(** [s[:n]] for a literal [n >= 0]. *)
Definition upto (n : nat) (s : string) : string := slice s 0 (Z.of_nat n).

Fixpoint startswith (sub s : string) : bool :=
  match sub, s with
  | "", _ => true
  | String a sub', String b s' => Ascii.eqb a b && startswith sub' s'
  | String _ _, "" => false
  end.

Fixpoint find_from (sub s : string) (i : Z) : Z :=
  if startswith sub s then i
  else match s with
       | "" => -1
       | String _ s' => find_from sub s' (i + 1)
       end.

(** [s.find(sub)]: the lowest index where [sub] occurs, or -1. *)
Definition find (s sub : string) : Z := find_from sub s 0.

Fixpoint lstrip (s : string) : string :=
  match s with
  | "" => ""
  | String c s' => if isspace c then lstrip s' else s
  end.

Fixpoint rstrip (s : string) : string :=
  match s with
  | "" => ""
  | String c s' =>
      match rstrip s' with
      | "" => if isspace c then "" else String c ""
      | r => String c r
      end
  end.

(** [s.strip()]. *)
Definition strip (s : string) : string := rstrip (lstrip s).

(** The maximal runs of characters of a class, left to right; [word] is
    the run being read. *)
Fixpoint runs_from (p : ascii -> bool) (word s : string) : list string :=
  match s with
  | "" => match word with "" => [] | _ => [word] end
  | String c s' =>
      if p c then runs_from p (word ++ String c "") s'
      else match word with
           | "" => runs_from p "" s'
           | _ => word :: runs_from p "" s'
           end
  end.

Definition runs (p : ascii -> bool) (s : string) : list string :=
  runs_from p "" s.

(** [s.split()]: the whitespace-delimited words. *)
Definition split (s : string) : list string :=
  runs (fun c => negb (isspace c)) s.

(** [sep.join(l)]. *)
Fixpoint join (sep : string) (l : list string) : string :=
  match l with
  | [] => ""
  | [x] => x
  | x :: l' => x ++ sep ++ join sep l'
  end.

(** [str(n)] and [{n}] in an f-string, for an [int]. *)
Definition str (n : Z) : string := NilZero.string_of_int (Z.to_int n).

(** Truthiness of a [str]. *)
Definition nonempty (s : string) : bool :=
  match s with "" => false | _ => true end.

(** The line feed. *)
Definition nl : string := String (ascii_of_N 10) "".

(** [sub in s]. *)
Definition contains (s sub : string) : Prop :=
  exists pre post, s = pre ++ sub ++ post.

(** [sub] occurs in [s] at index [n], and at no lower index. *)
Definition first_occurrence (s sub : string) (n : nat) : Prop :=
  (exists pre post, s = pre ++ sub ++ post /\ String.length pre = n)
  /\ forall k, (k < n)%nat -> startswith sub (drop k s) = false.

End PyStr.

(** ** The regular expressions of the engine *)

Module PyRe.
Import PyStr.

(** [re.findall(r'[.!?]', s)]. *)
Fixpoint findall_terminal (s : string) : list string :=
  match s with
  | "" => []
  | String c s' =>
      if (Ascii.eqb c "." || Ascii.eqb c "!" || Ascii.eqb c "?")%char
      then String c "" :: findall_terminal s'
      else findall_terminal s'
  end.

(** [re.findall(r'\w+', s)]. *)
Definition findall_words (s : string) : list string := runs isword s.

Definition head (s : string) : option ascii :=
  match s with "" => None | String c _ => Some c end.

Fixpoint last (prev : option ascii) (s : string) : option ascii :=
  match s with "" => prev | String c s' => last (Some c) s' end.

Definition isword_opt (c : option ascii) : bool :=
  match c with Some c => isword c | None => false end.

(** [\b] between the characters [prev] and [next] (absent at an end of the
    string). *)
Definition boundary (prev next : option ascii) : bool :=
  xorb (isword_opt prev) (isword_opt next).

(** [\b(w1|...|wn)\b] matched at the start of [s], the character before
    being [prev]. *)
Definition match_here (ws : list string) (prev : option ascii) (s : string)
  : bool :=
  boundary prev (head s)
  && existsb (fun w => startswith w s
                       && boundary (last prev w)
                                   (head (drop (String.length w) s))) ws.

Fixpoint search_from (ws : list string) (prev : option ascii) (s : string)
  : bool :=
  match_here ws prev s
  || match s with
     | "" => false
     | String c s' => search_from ws (Some c) s'
     end.

(** [re.search(r'\b(w1|...|wn)\b', s)] is not [None]. *)
Definition search_words (ws : list string) (s : string) : bool :=
  search_from ws None s.

(** [w] occurs in [s] as a whole word: it is neither preceded nor followed
    by a word character. *)
Definition whole_word (w s : string) : Prop :=
  exists pre post,
    s = pre ++ w ++ post
    /\ isword_opt (last None pre) = false
    /\ isword_opt (head post) = false.

(** A word that starts and ends with a word character. *)
Definition proper_word (w : string) : Prop :=
  isword_opt (head w) = true /\ isword_opt (last None w) = true.

End PyRe.

Import PyStr PyRe.

(** ** The output scorer *)

(** [set(re.findall(r'\w+', s.lower()))]. *)
Definition keywords (s : string) : set string :=
  fold_right (set_add string_dec) (empty_set string) (findall_words (lower s)).

Definition banned_words : list string := ["lorem"; "ipsum"; "error"].

(** [len(prompt_keywords.intersection(output_keywords))]. *)
Definition common_keywords (output prompt : string) : Z :=
  Z.of_nat (List.length (set_inter string_dec (keywords prompt) (keywords output))).

(** [common_keywords / max(len(prompt_keywords), 1)], as the exact quotient.
    Python computes the correctly rounded float of this quotient; the
    comparison with 0.5 agrees with the exact one as long as the prompt has
    fewer than 2^53 distinct tokens. *)
Definition overlap_ratio (output prompt : string) : Q :=
  Qmake (common_keywords output prompt)
        (Z.to_pos (Z.max (Z.of_nat (List.length (keywords prompt))) 1)).

Definition Qgtb (x y : Q) : bool := negb (Qle_bool x y).

Definition word_count (output : string) : Z :=
  Z.of_nat (List.length (split output)).

Definition clarity_points (output : string) : Z :=
  (if (word_count output >? 10)
      && (Z.of_nat (List.length (findall_terminal output)) >? 1)
   then 30 else 0)
  + (if negb (search_words banned_words (lower output)) then 10 else 0).

Definition relevance_points (output prompt : string) : Z :=
  if Qgtb (overlap_ratio output prompt) (1 # 2) then 30
  else if common_keywords output prompt >? 0 then 20
  else 0.

Definition length_points (output : string) : Z :=
  let word_count := word_count output in
  if (50 <=? word_count) && (word_count <=? 500) then 20
  else if ((20 <=? word_count) && (word_count <? 50))
          || ((500 <? word_count) && (word_count <=? 1000)) then 10
  else 0.

Definition score_output (output prompt : string) : Z :=
  let score := 0 in
  let score := score + clarity_points output in
  let score := score + relevance_points output prompt in
  let score := score + length_points output in
  Z.min score 100.

(** ** Prompt records

    [generate_prompts] builds dictionaries with the keys [id], [style] and
    [prompt]; [run_studio] adds [output] and [score] to each of them.  A
    key that has not been set yet is [None], and reading it raises
    [KeyError]. *)

Inductive result (A : Type) : Type :=
| Ok (a : A)
| Raise (msg : string).

Arguments Ok {A} a.
Arguments Raise {A} msg.

Module Dict.

Record t : Type := mk {
  id : Z;
  style : string;
  prompt : string;
  output : option string;
  score : option Z
}.

(** [d['output']]. *)
Definition getitem_output (d : t) : result string :=
  match output d with Some o => Ok o | None => Raise "'output'" end.

(** [d['score']]. *)
Definition getitem_score (d : t) : result Z :=
  match score d with Some s => Ok s | None => Raise "'score'" end.

(** [d['output'] = o; d['score'] = s]. *)
Definition set_output_score (d : t) (o : string) (s : Z) : t :=
  mk (id d) (style d) (prompt d) (Some o) (Some s).

End Dict.

(** ** Stage 1: the generation request and the response segmenter *)

Definition PROMPT_STYLES : list string :=
  ["Concise"; "Detailed"; "Structured"; "Creative"].

Definition creativity_modifier (creativity_level : Z) : string :=
  if creativity_level >? 7 then "highly creative and innovative"
  else if creativity_level >? 4 then "moderately creative"
  else "clear and straightforward".

(** The f-string [meta_prompt] of [generate_prompts]. *)
Definition generate_meta_prompt (rough_prompt : string) (creativity_level : Z)
  : string :=
  "
You are an expert prompt engineering team tasked with creating 4 professional prompt versions for the rough prompt idea '"
  ++ rough_prompt ++
  "'. Each prompt must have a distinct style: Concise, Detailed, Structured, and Creative. Ensure the prompts are "
  ++ creativity_modifier creativity_level ++
  ", relevant to the topic, and optimized for clarity and effectiveness. Return the prompts in the following format, with each prompt labeled:

1. **Concise**: A short, direct prompt (50-100 words).
2. **Detailed**: A comprehensive prompt (150-200 words) with specific instructions.
3. **Structured**: A prompt (100-150 words) using bullet points or numbered steps.
4. **Creative**: A novel, engaging prompt (100-150 words) with a unique angle.

Example for rough prompt 'Write a blog about AI trends':
1. **Concise**: Write a 500-word blog on key AI trends in 2025, focusing on industry impacts.
2. **Detailed**: Write a 1000-word blog exploring AI trends in 2025, including case studies, data, and predictions, in a professional tone for tech executives.
3. **Structured**: Write a 750-word blog on AI trends, covering:
   - Current advancements
   - Industry applications
   - Future outlook
4. **Creative**: Craft a 600-word blog as a futuristic AI narrating 2025 trends, blending humor and insight.

Generate the 4 prompts for '"
  ++ rough_prompt ++
  "'.
".

(** [f"**{style}**:"]. *)
Definition marker (style : string) : string := "**" ++ style ++ "**:".

(** [f"Error: Could not generate {style} prompt."]. *)
Definition sentinel (style : string) : string :=
  "Error: Could not generate " ++ style ++ " prompt.".

(** [enumerate(l, start)]. *)
Fixpoint enumerate {A : Type} (l : list A) (start : Z) : list (Z * A) :=
  match l with
  | [] => []
  | x :: l' => (start, x) :: enumerate l' (start + 1)
  end.

(** One turn of the parsing loop of [generate_prompts].  The index
    [idx % len(PROMPT_STYLES)] is in range whenever it is read. *)
Definition parse_style (response : string) (idx : Z) (style : string) : Dict.t :=
  let start_marker := marker style in
  let end_marker :=
    if idx <? Z.of_nat (List.length PROMPT_STYLES)
    then Some (marker (nth (Z.to_nat (idx mod Z.of_nat (List.length PROMPT_STYLES)))
                           PROMPT_STYLES ""))
    else None in
  let start_idx := find response start_marker + len start_marker in
  let end_idx :=
    match end_marker with
    | Some end_marker => find response end_marker
    | None => len response
    end in
  let prompt_text := strip (slice response start_idx end_idx) in
  if nonempty prompt_text
  then Dict.mk idx style prompt_text None None
  else Dict.mk idx style (sentinel style) None None.

(** The parsing loop of [generate_prompts]: the response segmenter. *)
Definition parse_response (response : string) : list Dict.t :=
  map (fun '(idx, style) => parse_style response idx style)
      (enumerate PROMPT_STYLES 1).

(** ** Stage 4: the refinement request *)

Definition refinements (prompt output : string) (score : Z) : list string :=
  (if score <? 80 then ["Add more specific instructions for clarity."] else [])
  ++ (if word_count output <? 50
      then ["Increase the expected output length."] else [])
  ++ (if negb (search_words ["tone"; "style"; "audience"] (lower prompt))
      then ["Specify tone and target audience."] else []).

(** The f-string [meta_prompt] of [refine_prompt]. *)
Definition refine_meta_prompt (prompt output : string) (score : Z) : string :=
  let joined := join ", " (refinements prompt output score) in
  "
You are an expert prompt engineer tasked with refining the following prompt to improve its clarity, specificity, and effectiveness. Original prompt: '"
  ++ prompt ++
  "'. Test output: '"
  ++ upto 200 output ++
  "...'. Score: "
  ++ str score ++
  "/100. Suggested refinements: "
  ++ (if nonempty joined then joined else "None") ++
  ". Return the refined prompt.
".

(** ** Stage 5: the report *)

(** [max(l)]: the first greatest element; [ValueError] on an empty list. *)
Definition max_from (m : Z) (l : list Z) : Z :=
  fold_left (fun m x => if x >? m then x else m) l m.

Definition py_max (l : list Z) : result Z :=
  match l with
  | [] => Raise "max() arg is an empty sequence"
  | x :: l' => Ok (max_from x l')
  end.

Definition report_header (now rough_prompt : string) : string :=
  "
PromptStudio Report
==================
Generated: "
  ++ now ++
  "
Original Rough Prompt: "
  ++ rough_prompt ++
  "

1. Generated Prompts
-------------------
".

Definition report_block (id : Z) (style prompt output : string) (score : Z)
  : string :=
  "
Prompt "
  ++ str id ++ " (" ++ style ++
  "):
"
  ++ prompt ++
  "

Test Output:
"
  ++ upto 500 output ++
  "...

Score: "
  ++ str score ++
  "/100
".

Definition report_footer (refined_prompt : string) (count : Z)
  (styles : string) (highest : Z) : string :=
  "
2. Refined Prompt
----------------
"
  ++ refined_prompt ++
  "

3. Summary
----------
Processed "
  ++ str count ++ " prompts with styles: " ++ styles ++
  ".
Highest score: "
  ++ str highest ++
  "/100.
Refinement improved the best prompt based on test feedback.
==================
".

(** ** The collaborators and the effects of the engine *)

(** What [run_studio] returns. *)
Record RunResult : Type := {
  prompts : list Dict.t;
  refined_prompt : string;
  report : string
}.

(** The model client, the model registry ([models_config]) and the clock. *)
Class Collaborators : Type := {
  (** The outside world, and a handle on a model. *)
  World : Type;
  Client : Type;
  (** [list(mc.MODEL_CONFIG.keys())]. *)
  MODEL_CONFIG_keys : list string;
  (** [mc.get_model_client(model)] and [client.complete(prompt)]: either may
      raise, and either may change the world. *)
  get_model_client : string -> World -> result Client * World;
  complete : Client -> string -> World -> result string * World;
  (** [datetime.now().isoformat()]. *)
  now_isoformat : World -> string * World
}.

Section Engine.

Context `{Collaborators}.

(** The state of a run: the world, and the requests sent to the model
    client so far (a ghost log, oldest first). *)
Record State : Type := {
  world : World;
  requests : list (Client * string)
}.

(** A computation that reads and writes the state and may raise.  The
    state reached when an exception is raised is kept. *)
Definition M (A : Type) : Type := State -> result A * State.

Definition ret {A : Type} (a : A) : M A := fun st => (Ok a, st).

Definition raise {A : Type} (msg : string) : M A := fun st => (Raise msg, st).

Definition bind {A B : Type} (m : M A) (k : A -> M B) : M B :=
  fun st =>
    match m st with
    | (Ok a, st') => k a st'
    | (Raise msg, st') => (Raise msg, st')
    end.

(** [try: m  except Exception as e: handler(str(e))]. *)
Definition try_except {A : Type} (m : M A) (handler : string -> M A) : M A :=
  fun st =>
    match m st with
    | (Ok a, st') => (Ok a, st')
    | (Raise msg, st') => handler msg st'
    end.

Definition lift {A : Type} (r : result A) : M A := fun st => (r, st).

Notation "x <- m ;; k" := (bind m (fun x => k))
  (at level 61, m at next level, right associativity).

Definition mc_get_model_client (model : string) : M Client :=
  fun st =>
    let (r, w) := get_model_client model (world st) in
    (r, {| world := w; requests := requests st |}).

Definition client_complete (client : Client) (prompt : string) : M string :=
  fun st =>
    let (r, w) := complete client prompt (world st) in
    (r, {| world := w; requests := requests st ++ [(client, prompt)] |}).

Definition datetime_now_isoformat : M string :=
  fun st =>
    let (now, w) := now_isoformat (world st) in
    (Ok now, {| world := w; requests := requests st |}).

(** [list(mc.MODEL_CONFIG.keys())[0]]. *)
Definition first_model : M string :=
  match MODEL_CONFIG_keys with
  | [] => raise "list index out of range"
  | k :: _ => ret k
  end.

(** [for x in l: ...], collecting what each turn makes of [x]. *)
Fixpoint for_each {A B : Type} (f : A -> M B) (l : list A) : M (list B) :=
  match l with
  | [] => ret []
  | x :: l' => y <- f x ;; ys <- for_each f l' ;; ret (y :: ys)
  end.

(** *** Stage 1 *)

Definition generate_prompts (rough_prompt : string) (creativity_level : Z)
  : M (list Dict.t) :=
  let meta_prompt := generate_meta_prompt rough_prompt creativity_level in
  try_except
    (model <- first_model ;;
     client <- mc_get_model_client model ;;
     response <- client_complete client meta_prompt ;;
     ret (parse_response response))
    (fun e => raise e).

(** *** Stage 2 *)

(** The loop of [test_prompt]: [n] turns are left, [i] is the loop
    variable. *)
Fixpoint test_loop (client : Client) (prompt : string) (n : nat) (i : Z)
  (outputs : list string) : M (list string) :=
  match n with
  | O => ret outputs
  | S n' =>
      output <- client_complete client prompt ;;
      test_loop client prompt n' (i + 1)
        (outputs ++ ["Iteration " ++ str (i + 1) ++ ": " ++ output])
  end.

Definition test_prompt (prompt model : string) (iterations : Z) : M string :=
  try_except
    (client <- mc_get_model_client model ;;
     outputs <- test_loop client prompt (Z.to_nat iterations) 0 [] ;;
     ret (join nl outputs))
    (fun e => raise e).

(** One turn of the loop of [run_studio]. *)
Definition test_and_score (model : string) (iterations : Z)
  (prompt_data : Dict.t) : M Dict.t :=
  try_except
    (output <- test_prompt (Dict.prompt prompt_data) model iterations ;;
     ret (Dict.set_output_score prompt_data output
            (score_output output (Dict.prompt prompt_data))))
    (fun e => ret (Dict.set_output_score prompt_data ("Error: " ++ e) 0)).

(** *** Stage 4 *)

Definition refine_prompt (prompt output : string) (score : Z) : M string :=
  let meta_prompt := refine_meta_prompt prompt output score in
  try_except
    (model <- first_model ;;
     client <- mc_get_model_client model ;;
     refined_prompt <- client_complete client meta_prompt ;;
     ret (strip refined_prompt))
    (fun _ => ret prompt).

(** *** Stage 5 *)

(** The loop of [generate_report]. *)
Fixpoint report_blocks (report : string) (prompts : list Dict.t)
  : result string :=
  match prompts with
  | [] => Ok report
  | prompt_data :: prompts' =>
      match Dict.getitem_output prompt_data with
      | Raise e => Raise e
      | Ok output =>
          match Dict.getitem_score prompt_data with
          | Raise e => Raise e
          | Ok score =>
              report_blocks
                (report ++ report_block (Dict.id prompt_data)
                             (Dict.style prompt_data)
                             (Dict.prompt prompt_data) output score)
                prompts'
          end
      end
  end.

(** [[p['score'] for p in prompts]]. *)
Fixpoint scores (prompts : list Dict.t) : result (list Z) :=
  match prompts with
  | [] => Ok []
  | p :: prompts' =>
      match Dict.getitem_score p with
      | Raise e => Raise e
      | Ok s =>
          match scores prompts' with
          | Raise e => Raise e
          | Ok l => Ok (s :: l)
          end
      end
  end.

Definition generate_report (rough_prompt : string) (prompts : list Dict.t)
  (refined_prompt : string) : M string :=
  now <- datetime_now_isoformat ;;
  report <- lift (report_blocks (report_header now rough_prompt) prompts) ;;
  l <- lift (scores prompts) ;;
  highest <- lift (py_max l) ;;
  ret (report
       ++ report_footer refined_prompt (Z.of_nat (List.length prompts))
            (join ", " (map Dict.style prompts)) highest).

(** *** The orchestrator *)

(** [max(l, key=lambda p: p['score'])] read from [best] on: a later prompt
    replaces [best] only when its score is greater. *)
Fixpoint max_by_score (best : Dict.t) (best_score : Z) (l : list Dict.t)
  : result Dict.t :=
  match l with
  | [] => Ok best
  | p :: l' =>
      match Dict.getitem_score p with
      | Raise e => Raise e
      | Ok s => if s >? best_score then max_by_score p s l'
                else max_by_score best best_score l'
      end
  end.

(** [max(prompts, key=lambda p: p['score'], default=prompts[0])]; the
    default is evaluated first. *)
Definition best_prompt (prompts : list Dict.t) : result Dict.t :=
  match prompts with
  | [] => Raise "list index out of range"
  | p :: l' =>
      match Dict.getitem_score p with
      | Raise e => Raise e
      | Ok s => max_by_score p s l'
      end
  end.

Definition run_studio (rough_prompt : string) (creativity_level : Z)
  (model : string) (iterations : Z) : M RunResult :=
  prompts <- generate_prompts rough_prompt creativity_level ;;
  prompts <- for_each (test_and_score model iterations) prompts ;;
  best_prompt <- lift (best_prompt prompts) ;;
  output <- lift (Dict.getitem_output best_prompt) ;;
  score <- lift (Dict.getitem_score best_prompt) ;;
  refined_prompt <- refine_prompt (Dict.prompt best_prompt) output score ;;
  report <- generate_report rough_prompt prompts refined_prompt ;;
  ret {| prompts := prompts;
         refined_prompt := refined_prompt;
         report := report |}.

End Engine.

(** ** Reference notions used to state the properties *)

(** What the segmenter makes of the text [segment] found for [style]. *)
Definition segment_text (style segment : string) : string :=
  if nonempty (strip segment) then strip segment else sentinel style.

(** The outputs of the test calls, labelled from 1 on. *)
Definition labelled (outputs : list string) : list string :=
  map (fun '(i, output) => "Iteration " ++ str i ++ ": " ++ output)
      (enumerate outputs 1).

(** [m] is the greatest score of [prompts]. *)
Definition highest_score (prompts : list Dict.t) (m : Z) : Prop :=
  (exists p, In p prompts /\ Dict.score p = Some m)
  /\ forall p s, In p prompts -> Dict.score p = Some s -> s <= m.

(** [best] stands at index [i] of [prompts], no prompt has a greater score,
    and no earlier prompt has the same score. *)
Definition first_best (prompts : list Dict.t) (i : nat) (best : Dict.t) : Prop :=
  nth_error prompts i = Some best
  /\ exists sb, Dict.score best = Some sb
     /\ forall j p s, nth_error prompts j = Some p -> Dict.score p = Some s ->
                      s <= sb /\ ((j < i)%nat -> s < sb).

(** The keys [output] and [score] are set. *)
Definition populated (p : Dict.t) : bool :=
  match Dict.output p, Dict.score p with
  | Some _, Some _ => true
  | _, _ => false
  end.

(** What the loop of [run_studio] makes of a prompt whose test call returned
    or raised [r]. *)
Definition tested (p : Dict.t) (r : result string) : Dict.t :=
  match r with
  | Ok output =>
      Dict.set_output_score p output (score_output output (Dict.prompt p))
  | Raise e => Dict.set_output_score p ("Error: " ++ e) 0
  end.

(** The line of the report that states the highest score. *)
Definition highest_score_line (m : Z) : string :=
  "Highest score: " ++ str m ++ "/100.".

Section ReferenceRuns.

Context `{Collaborators}.

(** [n] successive calls of [client.complete(prompt)], as long as they
    succeed. *)
Fixpoint complete_all (client : Client) (prompt : string) (n : nat) (w : World)
  : result (list string) * World :=
  match n with
  | O => (Ok [], w)
  | S n' =>
      match complete client prompt w with
      | (Raise e, w') => (Raise e, w')
      | (Ok output, w') =>
          match complete_all client prompt n' w' with
          | (Raise e, w'') => (Raise e, w'')
          | (Ok outputs, w'') => (Ok (output :: outputs), w'')
          end
      end
  end.

(** The test calls of the prompts of [l], one after the other, each with
    what it returned or raised. *)
Fixpoint run_tests (model : string) (iterations : Z) (l : list Dict.t)
  (st : State) : list (result string) * State :=
  match l with
  | [] => ([], st)
  | p :: l' =>
      let (r, st') := test_prompt (Dict.prompt p) model iterations st in
      let (rs, st'') := run_tests model iterations l' st' in
      (r :: rs, st'')
  end.

End ReferenceRuns.

(** ** Concrete inputs *)

(** [s * n]. *)
Fixpoint times (s : string) (n : nat) : string :=
  match n with
  | O => ""
  | S n' => s ++ times s n'
  end.

(** A model client that answers from a script, one entry per call, and a
    registry of two models. *)
Definition scripted : Collaborators := {|
  World := list (result string);
  Client := string;
  MODEL_CONFIG_keys := ["model-a"; "model-b"];
  get_model_client := fun model w =>
    (if existsb (String.eqb model) ["model-a"; "model-b"]
     then Ok model else Raise ("'" ++ model ++ "'"), w);
  complete := fun _ _ w =>
    match w with
    | [] => (Raise "connection refused", [])
    | r :: w' => (r, w')
    end;
  now_isoformat := fun w => ("2025-01-01T00:00:00", w)
|}.

Definition canonical_response : string :=
  "1. **Concise**: a 2. **Detailed**: b 3. **Structured**: c 4. **Creative**: d".

Definition empty_segment_response : string :=
  "**Concise**:**Detailed**: b **Structured**: c **Creative**: d".

Definition missing_detailed_response : string :=
  "**Concise**: Write a poem. **Structured**: List steps. **Creative**: Sing it.".

(** A run of [run_studio]: the generation call returns
    [canonical_response], the test call of the second prompt raises, the
    other test calls and the refinement call return. *)
Definition failing_second_test : @State scripted :=
  @Build_State scripted
    [Ok canonical_response;
     Ok "AI trends in 2025. Agents, small models, and regulation!";
     Raise "rate limit exceeded";
     Ok "c is for compute. d is for data.";
     Ok "lorem ipsum";
     Ok "  Write a 500-word blog on AI trends.  "]
    [].

(** A world where the next call of the model raises. *)
Definition failing_call : @State scripted :=
  @Build_State scripted [Raise "timeout"] [].

(** A world where the next two calls of the model return. *)
Definition two_answers : @State scripted :=
  @Build_State scripted [Ok "hi"; Ok "hello"] [].

Definition scored_prompts : list Dict.t :=
  [Dict.mk 1 "Concise" "a" (Some "Iteration 1: x") (Some 40);
   Dict.mk 2 "Detailed" "b" (Some "Error: timeout") (Some 0);
   Dict.mk 3 "Structured" "c" (Some "Iteration 1: y") (Some 70);
   Dict.mk 4 "Creative" "d" (Some "Iteration 1: z") (Some 70)].

(** 100 words, 3 sentences. *)
Definition hundred_words : string :=
  times "ai trends " 32 ++ "done. " ++ times "ai blog " 16 ++ "ok! the end?".

(** Every character of [s] is in the class [p]. *)
Fixpoint string_forall (p : ascii -> bool) (s : string) : bool :=
  match s with
  | "" => true
  | String c s' => p c && string_forall p s'
  end.

(** A prompt whose parsing failed, as [generate_prompts] records it. *)
Definition sentinel_prompt (idx : Z) (style : string) : Dict.t :=
  Dict.mk idx style (sentinel style) None None.


(** The prompts as the loop of [run_studio] leaves them, given what the
    test call of each returned or raised. *)
Definition tested_prompts (generated : list Dict.t)
  (outcomes : list (result string)) : list Dict.t :=
  map (fun '(p, r) => tested p r) (combine generated outcomes).

(** The block of the report for a prompt whose output and score are set. *)
Definition block_of (p : Dict.t) : string :=
  match Dict.output p, Dict.score p with
  | Some output, Some score =>
      report_block (Dict.id p) (Dict.style p) (Dict.prompt p) output score
  | _, _ => ""
  end.

(** The three words that [refine_prompt] looks for in a prompt. *)
Definition audience_words : list string := ["tone"; "style"; "audience"].


(** The sum of a list of integers. *)
Definition total (l : list Z) : Z := fold_right Z.add 0 l.


(** A run of [run_studio] in which every test call raises. *)
Definition failing_tests : @State scripted :=
  @Build_State scripted
    [Ok canonical_response;
     Raise "rate limit exceeded"; Raise "timeout"; Raise "timeout";
     Raise "bad gateway";
     Ok "Write about a, please."]
    [].

(** A world where the next call of the model returns and the one after it
    raises. *)
Definition answer_then_failure : @State scripted :=
  @Build_State scripted [Ok "hi"; Raise "timeout"; Ok "never asked"] [].

(** A response where the marker of Detailed comes before that of Concise. *)
Definition swapped_response : string :=
  "**Detailed**: b **Concise**: a **Structured**: c **Creative**: d".


(** * Properties *)

(** ** Strings *)

Section StringFacts.

Lemma append_nil_r (s : string) : s ++ "" = s.
Proof. induction s as [|c s IH]; simpl; [reflexivity | now rewrite IH]. Qed.

Lemma append_assoc (a b c : string) : (a ++ b) ++ c = a ++ b ++ c.
Proof. induction a as [|x a IH]; simpl; [reflexivity | now rewrite IH]. Qed.

Lemma length_append (a b : string) :
  String.length (a ++ b) = (String.length a + String.length b)%nat.
Proof. induction a as [|x a IH]; simpl; [reflexivity | now rewrite IH]. Qed.

Lemma len_append (a b : string) : len (a ++ b) = len a + len b.
Proof. unfold len. rewrite length_append. lia. Qed.

Lemma len_nonneg (s : string) : 0 <= len s.
Proof. unfold len. lia. Qed.

Lemma drop_append (a b : string) : drop (String.length a) (a ++ b) = b.
Proof. induction a as [|x a IH]; simpl; [now destruct b | exact IH]. Qed.

Lemma take_append (a b : string) : take (String.length a) (a ++ b) = a.
Proof. induction a as [|x a IH]; simpl; [reflexivity | now rewrite IH]. Qed.

Lemma take_all (s : string) : take (String.length s) s = s.
Proof. induction s as [|x s IH]; simpl; [reflexivity | now rewrite IH]. Qed.

Lemma drop_0 (s : string) : drop 0 s = s.
Proof. now destruct s. Qed.

Lemma startswith_append (sub post : string) : startswith sub (sub ++ post) = true.
Proof.
  induction sub as [|c sub IH]; simpl; [reflexivity|].
  now rewrite Ascii.eqb_refl, IH.
Qed.

Lemma startswith_inv (sub s : string) :
  startswith sub s = true -> s = sub ++ drop (String.length sub) s.
Proof.
  revert s. induction sub as [|c sub IH]; intros s Hs; simpl.
  - now rewrite ?drop_0.
  - destruct s as [|d s]; simpl in Hs; [discriminate|].
    apply andb_prop in Hs. destruct Hs as [Hc Hs].
    apply Ascii.eqb_eq in Hc. subst d. f_equal. now apply IH.
Qed.

Lemma startswith_iff (sub s : string) :
  startswith sub s = true <-> exists post, s = sub ++ post.
Proof.
  split.
  - intros Hs. eexists. now apply startswith_inv.
  - intros [post ->]. apply startswith_append.
Qed.

(** *** [find] returns the first occurrence *)

Lemma find_from_range (sub s : string) (i : Z) :
  find_from sub s i = -1 \/ i <= find_from sub s i <= i + len s.
Proof.
  revert i. induction s as [|c s IH]; intros i; simpl.
  - destruct (startswith sub ""); [right; unfold len; simpl; lia | now left].
  - destruct (startswith sub (String c s)).
    + right. unfold len. simpl String.length. lia.
    + destruct (IH (i + 1)) as [E | E]; [now left | right].
      unfold len in *. simpl String.length. lia.
Qed.

Lemma find_from_shift (sub s : string) (i : Z) :
  0 <= i ->
  find_from sub s i = if find_from sub s 0 <? 0 then -1 else find_from sub s 0 + i.
Proof.
  revert i. induction s as [|c s IH]; intros i Hi; simpl.
  - destruct (startswith sub ""); simpl; lia.
  - destruct (startswith sub (String c s)); simpl; [lia|].
    rewrite (IH (i + 1)) by lia. rewrite (IH 1) by lia.
    destruct (find_from_range sub s 0) as [E | E].
    + rewrite E. reflexivity.
    + pose proof (len_nonneg s).
      destruct (find_from sub s 0 <? 0) eqn:E0; [lia|].
      destruct (find_from sub s 0 + 1 <? 0) eqn:E1; lia.
Qed.

Lemma find_cons (sub : string) (c : ascii) (s : string) :
  startswith sub (String c s) = false ->
  find (String c s) sub = if find s sub <? 0 then -1 else find s sub + 1.
Proof.
  intros Hs. unfold find. simpl. rewrite Hs.
  now rewrite (find_from_shift sub s 1) by lia.
Qed.

Lemma find_first_occurrence (s sub : string) (n : nat) :
  first_occurrence s sub n -> find s sub = Z.of_nat n.
Proof.
  revert s. induction n as [|n IH]; intros s [[pre [post [Hs Hn]]] Hlow].
  - destruct pre; [|discriminate]. simpl in Hs. subst s.
    unfold find. destruct (sub ++ post) eqn:E; simpl;
      rewrite <- ?E, startswith_append; reflexivity.
  - destruct pre as [|c pre]; [discriminate|]. simpl in Hs, Hn. subst s.
    injection Hn as Hn.
    rewrite find_cons.
    + rewrite (IH (pre ++ sub ++ post)).
      * destruct (Z.of_nat n <? 0) eqn:E; lia.
      * split; [now exists pre, post|].
        intros k Hk. apply (Hlow (S k)). lia.
    + specialize (Hlow 0%nat). rewrite drop_0 in Hlow. apply Hlow. lia.
Qed.

Lemma find_absent (s sub : string) :
  (forall k, startswith sub (drop k s) = false) -> find s sub = -1.
Proof.
  induction s as [|c s IH]; intros Hlow.
  - pose proof (Hlow 0%nat) as H0. rewrite drop_0 in H0.
    unfold find. simpl. now rewrite H0.
  - rewrite find_cons.
    + rewrite IH; [reflexivity|]. intros k. apply (Hlow (S k)).
    + specialize (Hlow 0%nat). now rewrite drop_0 in Hlow.
Qed.

Lemma find_found (s sub : string) (n : Z) :
  find s sub = n -> 0 <= n -> first_occurrence s sub (Z.to_nat n).
Proof.
  revert n. induction s as [|c s IH]; intros n Hf Hn.
  - unfold find in Hf. simpl in Hf. destruct (startswith sub "") eqn:E; [|lia].
    subst n. simpl. split; [|intros k Hk; lia].
    apply startswith_inv in E. exists "", (drop (String.length sub) "").
    now split.
  - destruct (startswith sub (String c s)) eqn:E.
    + unfold find in Hf. simpl in Hf. rewrite E in Hf. subst n. simpl.
      split; [|intros k Hk; lia].
      apply startswith_inv in E. exists "", (drop (String.length sub) (String c s)).
      now split.
    + rewrite (find_cons _ _ _ E) in Hf.
      destruct (find s sub <? 0) eqn:E0; [lia|].
      destruct (IH (find s sub) eq_refl ltac:(lia)) as [[pre [post [Hs Hl]]] Hlow].
      replace (Z.to_nat n) with (S (Z.to_nat (find s sub))) by lia.
      split.
      * exists (String c pre), post. simpl. now rewrite <- Hs, Hl.
      * intros [|k] Hk; [now rewrite drop_0|]. simpl. apply Hlow. lia.
Qed.

(** *** Slices *)

Lemma slice_middle (a b c : string) :
  slice (a ++ b ++ c) (len a) (len a + len b) = b.
Proof.
  unfold slice, slice_bound. rewrite !len_append.
  pose proof (len_nonneg a). pose proof (len_nonneg b). pose proof (len_nonneg c).
  destruct (len a <? 0) eqn:Ea; [lia|].
  destruct (len a + len b <? 0) eqn:Eb; [lia|].
  rewrite !Z.min_l by lia.
  replace (Z.to_nat (len a)) with (String.length a) by (unfold len; lia).
  replace (Z.to_nat (len a + len b - len a)) with (String.length b)
    by (unfold len; lia).
  now rewrite drop_append, take_append.
Qed.

Lemma slice_end (a b : string) : slice (a ++ b) (len a) (len (a ++ b)) = b.
Proof.
  unfold slice, slice_bound. rewrite !len_append.
  pose proof (len_nonneg a). pose proof (len_nonneg b).
  destruct (len a <? 0) eqn:Ea; [lia|].
  destruct (len a + len b <? 0) eqn:Eb; [lia|].
  rewrite !Z.min_l by lia.
  replace (Z.to_nat (len a)) with (String.length a) by (unfold len; lia).
  replace (Z.to_nat (len a + len b - len a)) with (String.length b)
    by (unfold len; lia).
  now rewrite drop_append, take_all.
Qed.

End StringFacts.

(** ** The regular expression of whole words *)

Section WholeWords.

Variable ws : list string.
Hypothesis ws_proper : Forall proper_word ws.

Lemma last_cons (prev : option ascii) (w : string) :
  w <> "" -> last prev w = last None w.
Proof. destruct w; [congruence | reflexivity]. Qed.

Lemma proper_word_nonempty (w : string) : proper_word w -> w <> "".
Proof. intros [Hh _] ->. discriminate. Qed.

Lemma head_append (w post : string) : w <> "" -> head (w ++ post) = head w.
Proof. destruct w; [congruence | reflexivity]. Qed.

Lemma match_here_sound (prev : option ascii) (s : string) :
  match_here ws prev s = true ->
  exists w post, In w ws /\ s = w ++ post
                 /\ isword_opt prev = false /\ isword_opt (head post) = false.
Proof.
  unfold match_here. intros Hm.
  apply andb_prop in Hm. destruct Hm as [Hb Hex].
  apply existsb_exists in Hex. destruct Hex as [w [Hin Hw]].
  apply andb_prop in Hw. destruct Hw as [Hsw Ha].
  pose proof (proj1 (Forall_forall _ _) ws_proper w Hin) as Hp.
  pose proof (proper_word_nonempty w Hp) as Hne.
  destruct Hp as [Hh Hl].
  apply startswith_inv in Hsw.
  exists w, (drop (String.length w) s). repeat split; auto.
  - rewrite Hsw, head_append in Hb by assumption.
    unfold boundary in Hb. rewrite Hh in Hb.
    now destruct (isword_opt prev).
  - rewrite last_cons in Ha by assumption.
    unfold boundary in Ha. rewrite Hl in Ha.
    now destruct (isword_opt (head (drop (String.length w) s))).
Qed.

Lemma match_here_complete (prev : option ascii) (w post : string) :
  In w ws -> isword_opt prev = false -> isword_opt (head post) = false ->
  match_here ws prev (w ++ post) = true.
Proof.
  intros Hin Hprev Hpost.
  pose proof (proj1 (Forall_forall _ _) ws_proper w Hin) as Hp.
  pose proof (proper_word_nonempty w Hp) as Hne.
  destruct Hp as [Hh Hl].
  unfold match_here. apply andb_true_intro. split.
  - rewrite head_append by assumption. unfold boundary. now rewrite Hprev, Hh.
  - apply existsb_exists. exists w. split; [assumption|].
    rewrite startswith_append, drop_append, last_cons by assumption.
    unfold boundary. now rewrite Hl, Hpost.
Qed.

Lemma search_from_here (prev : option ascii) (s : string) :
  match_here ws prev s = true -> search_from ws prev s = true.
Proof. intros Hm. destruct s; simpl; now rewrite Hm. Qed.

Lemma search_from_sound (s : string) (prev : option ascii) :
  search_from ws prev s = true ->
  exists w pre post, In w ws /\ s = pre ++ w ++ post
                     /\ isword_opt (last prev pre) = false
                     /\ isword_opt (head post) = false.
Proof.
  revert prev. induction s as [|c s IH]; intros prev Hs; simpl in Hs;
    apply orb_prop in Hs; destruct Hs as [Hm | Hs]; try discriminate.
  - apply match_here_sound in Hm. destruct Hm as [w [post [? [? [? ?]]]]].
    now exists w, "", post.
  - apply match_here_sound in Hm. destruct Hm as [w [post [? [? [? ?]]]]].
    now exists w, "", post.
  - apply IH in Hs. destruct Hs as [w [pre [post [? [-> [? ?]]]]]].
    now exists w, (String c pre), post.
Qed.

Lemma search_from_complete (w pre post : string) (prev : option ascii) :
  In w ws -> isword_opt (last prev pre) = false ->
  isword_opt (head post) = false ->
  search_from ws prev (pre ++ w ++ post) = true.
Proof.
  intros Hin. revert prev. induction pre as [|c pre IH]; intros prev Hpre Hpost.
  - simpl. apply search_from_here. now apply match_here_complete.
  - simpl. rewrite (IH (Some c)) by assumption. apply orb_true_r.
Qed.

(** [re.search] finds a match exactly when one of the words occurs as a
    whole word. *)
Lemma search_words_spec (s : string) :
  search_words ws s = true <-> exists w, In w ws /\ whole_word w s.
Proof.
  unfold search_words, whole_word. split.
  - intros Hs. apply search_from_sound in Hs.
    destruct Hs as [w [pre [post [? [? [? ?]]]]]]. exists w. split; eauto.
  - intros [w [Hin [pre [post [-> [? ?]]]]]]. now apply search_from_complete.
Qed.

End WholeWords.

Lemma banned_words_proper : Forall proper_word banned_words.
Proof. repeat constructor. Qed.

(** ** The output scorer *)

Lemma set_inter_nil_r (x : set string) : set_inter string_dec x [] = [].
Proof. induction x as [|a x IH]; simpl; [reflexivity | exact IH]. Qed.

Lemma clarity_points_range (output : string) : 0 <= clarity_points output <= 40.
Proof.
  unfold clarity_points.
  destruct ((word_count output >? 10)
            && (Z.of_nat (List.length (findall_terminal output)) >? 1));
    destruct (negb (search_words banned_words (lower output))); lia.
Qed.

Lemma relevance_points_range (output prompt : string) :
  0 <= relevance_points output prompt <= 30.
Proof.
  unfold relevance_points.
  destruct (Qgtb (overlap_ratio output prompt) (1 # 2)); [lia|].
  destruct (common_keywords output prompt >? 0); lia.
Qed.

Lemma length_points_range (output : string) : 0 <= length_points output <= 20.
Proof.
  unfold length_points.
  destruct ((50 <=? word_count output) && (word_count output <=? 500)); [lia|].
  destruct ((20 <=? word_count output) && (word_count output <? 50)
            || (500 <? word_count output) && (word_count output <=? 1000)); lia.
Qed.

Lemma score_output_range (output prompt : string) :
  0 <= score_output output prompt <= 90.
Proof.
  unfold score_output.
  pose proof (clarity_points_range output).
  pose proof (relevance_points_range output prompt).
  pose proof (length_points_range output).
  lia.
Qed.

(** The comparison of the quotient with one half, on integers. *)
Lemma overlap_ratio_gt_half (output prompt : string) :
  Qgtb (overlap_ratio output prompt) (1 # 2) = true
  <-> Z.max (Z.of_nat (List.length (keywords prompt))) 1
      < 2 * common_keywords output prompt.
Proof.
  unfold Qgtb, overlap_ratio, Qle_bool. cbn [Qnum Qden].
  rewrite Z2Pos.id by lia. rewrite negb_true_iff, Z.leb_gt. lia.
Qed.

(** C4 (as amended).  For every prompt the empty output scores 10: it fails
    the first clarity check, the relevance bucket and the length bucket, and
    earns the 10 points of an output without banned words. *)
Theorem score_output_empty (prompt : string) : score_output "" prompt = 10.
Proof.
  unfold score_output, clarity_points, relevance_points, length_points.
  assert (Hc : common_keywords "" prompt = 0).
  { unfold common_keywords. replace (keywords "") with (@nil string) by reflexivity.
    now rewrite set_inter_nil_r. }
  assert (Hr : Qgtb (overlap_ratio "" prompt) (1 # 2) = false).
  { apply not_true_is_false. rewrite overlap_ratio_gt_half. rewrite Hc. lia. }
  rewrite Hr, Hc. reflexivity.
Qed.

(** C4, refuted as stated: the empty output does not score 0. *)
Lemma score_output_empty_not_zero :
  score_output "" "Write a blog about AI trends" <> 0.
Proof. vm_compute. discriminate. Qed.

(** C5.  The score depends on the pair (output, prompt) only: two
    evaluations on the same pair give the same integer, and that integer is
    in the interval [0, 100]. *)
Theorem score_output_deterministic (output prompt : string) (s1 s2 : Z) :
  s1 = score_output output prompt ->
  s2 = score_output output prompt ->
  s1 = s2 /\ 0 <= s1 <= 100.
Proof.
  intros -> ->. split; [reflexivity|].
  pose proof (score_output_range output prompt). lia.
Qed.

(** C7.  An output of exactly 100 whitespace-delimited words, with more than
    one sentence-terminal punctuation mark, without any whole-word
    occurrence of a banned word in its lowercase form, and whose overlap
    ratio with the prompt is above one half, scores exactly 90. *)
Theorem score_output_ninety (output prompt : string) :
  word_count output = 100 ->
  1 < Z.of_nat (List.length (findall_terminal output)) ->
  (forall w, In w banned_words -> ~ whole_word w (lower output)) ->
  (1 # 2 < overlap_ratio output prompt)%Q ->
  score_output output prompt = 30 + 10 + 30 + 20.
Proof.
  intros Hwords Hmarks Hbanned Hratio.
  unfold score_output, clarity_points, relevance_points, length_points.
  rewrite Hwords.
  assert (Hs : search_words banned_words (lower output) = false).
  { apply not_true_is_false. intros Hs.
    apply (search_words_spec _ banned_words_proper) in Hs.
    destruct Hs as [w [Hin Hw]]. exact (Hbanned w Hin Hw). }
  assert (Hq : Qgtb (overlap_ratio output prompt) (1 # 2) = true).
  { unfold Qgtb. apply negb_true_iff, not_true_is_false. intros Hle.
    apply Qle_bool_iff in Hle. apply Qlt_not_le in Hratio. contradiction. }
  rewrite Hs, Hq.
  replace (Z.of_nat (List.length (findall_terminal output)) >? 1) with true
    by (symmetry; apply Z.gtb_lt; exact Hmarks).
  reflexivity.
Qed.

(** ** The response segmenter *)

(** The segmenter never fails and always returns the four styles with the
    ids 1 to 4, in order. *)
Lemma parse_response_shape (response : string) :
  map (fun p => (Dict.id p, Dict.style p, Dict.output p, Dict.score p))
      (parse_response response)
  = [(1, "Concise", None, None); (2, "Detailed", None, None);
     (3, "Structured", None, None); (4, "Creative", None, None)].
Proof.
  unfold parse_response, parse_style. simpl map.
  repeat match goal with
         | |- context [if ?b then _ else _] => destruct b
         end; reflexivity.
Qed.

Lemma parse_response_length (response : string) :
  List.length (parse_response response) = 4%nat.
Proof. reflexivity. Qed.

(** A style other than the last one, when its marker is first found right
    before [segment] and the next marker right after it. *)
Lemma parse_style_between (response : string) (idx : Z) (style next : string)
  (before segment rest : string) :
  idx < 4 ->
  nth (Z.to_nat (idx mod 4)) PROMPT_STYLES "" = next ->
  response = before ++ marker style ++ segment ++ marker next ++ rest ->
  find response (marker style) = len before ->
  find response (marker next) = len (before ++ marker style ++ segment) ->
  parse_style response idx style
  = Dict.mk idx style (segment_text style segment) None None.
Proof.
  intros Hidx Hnext Hresp Hstart Hend.
  unfold parse_style, segment_text.
  change (Z.of_nat (List.length PROMPT_STYLES)) with 4.
  apply Z.ltb_lt in Hidx. rewrite Hidx, Hnext, Hstart, Hend.
  assert (Hslice : slice response (len before + len (marker style))
                     (len (before ++ marker style ++ segment)) = segment).
  { rewrite Hresp, <- (append_assoc before (marker style) (segment ++ _)).
    replace (len before + len (marker style)) with (len (before ++ marker style))
      by apply len_append.
    replace (len (before ++ marker style ++ segment))
      with (len (before ++ marker style) + len segment)
      by (rewrite !len_append; lia).
    apply slice_middle. }
  rewrite Hslice. now destruct (nonempty (strip segment)).
Qed.

(** The last style, when its marker is first found right before [segment]. *)
Lemma parse_style_last (response : string) (style before segment : string) :
  response = before ++ marker style ++ segment ->
  find response (marker style) = len before ->
  parse_style response 4 style
  = Dict.mk 4 style (segment_text style segment) None None.
Proof.
  intros Hresp Hstart.
  unfold parse_style, segment_text.
  change (Z.of_nat (List.length PROMPT_STYLES)) with 4.
  change (4 <? 4) with false. cbv iota. rewrite Hstart.
  assert (Hslice : slice response (len before + len (marker style)) (len response)
                   = segment).
  { rewrite Hresp, <- (append_assoc before (marker style) segment).
    replace (len before + len (marker style)) with (len (before ++ marker style))
      by apply len_append.
    apply slice_end. }
  rewrite Hslice. now destruct (nonempty (strip segment)).
Qed.

(** C2 (as amended).  When the response reads
    [before **Concise**: s1 **Detailed**: s2 **Structured**: s3 **Creative**: s4]
    and these markers are the first occurrences of the four markers, the
    segmenter returns exactly 4 prompts with the ids 1 to 4 in order, and
    the text of each is its segment stripped of leading and trailing
    whitespace, or the sentinel of its style when nothing is left. *)
Theorem parse_response_canonical (before s1 s2 s3 s4 response : string) :
  response = before ++ marker "Concise" ++ s1 ++ marker "Detailed" ++ s2
             ++ marker "Structured" ++ s3 ++ marker "Creative" ++ s4 ->
  find response (marker "Concise") = len before ->
  find response (marker "Detailed") = len (before ++ marker "Concise" ++ s1) ->
  find response (marker "Structured")
  = len (before ++ marker "Concise" ++ s1 ++ marker "Detailed" ++ s2) ->
  find response (marker "Creative")
  = len (before ++ marker "Concise" ++ s1 ++ marker "Detailed" ++ s2
         ++ marker "Structured" ++ s3) ->
  parse_response response
  = [Dict.mk 1 "Concise" (segment_text "Concise" s1) None None;
     Dict.mk 2 "Detailed" (segment_text "Detailed" s2) None None;
     Dict.mk 3 "Structured" (segment_text "Structured" s3) None None;
     Dict.mk 4 "Creative" (segment_text "Creative" s4) None None].
Proof.
  intros Hresp H1 H2 H3 H4.
  unfold parse_response. simpl map.
  rewrite (parse_style_between response 1 "Concise" "Detailed" before s1
             (s2 ++ marker "Structured" ++ s3 ++ marker "Creative" ++ s4));
    [| lia | reflexivity | exact Hresp | exact H1 | exact H2].
  rewrite (parse_style_between response 2 "Detailed" "Structured"
             (before ++ marker "Concise" ++ s1) s2
             (s3 ++ marker "Creative" ++ s4));
    [| lia | reflexivity | | exact H2 | ].
  - rewrite (parse_style_between response 3 "Structured" "Creative"
               (before ++ marker "Concise" ++ s1 ++ marker "Detailed" ++ s2) s3
               s4);
      [| lia | reflexivity | | exact H3 | ].
    + rewrite (parse_style_last response "Creative"
                 (before ++ marker "Concise" ++ s1 ++ marker "Detailed" ++ s2
                  ++ marker "Structured" ++ s3) s4); [reflexivity | | exact H4].
      rewrite Hresp. now rewrite !append_assoc.
    + rewrite Hresp. now rewrite !append_assoc.
    + rewrite H4. now rewrite !append_assoc.
  - rewrite Hresp. now rewrite !append_assoc.
  - rewrite H3. now rewrite !append_assoc.
Qed.

(** C2, refuted as stated: in a response with the four markers in canonical
    order the text of a prompt is not the exact substring between its marker
    and the next (the whitespace around it is stripped), and it is the
    sentinel when that substring is empty. *)
Lemma parse_response_not_exact_substring :
  (canonical_response
   = "1. " ++ marker "Concise" ++ " a 2. " ++ marker "Detailed" ++ " b 3. "
     ++ marker "Structured" ++ " c 4. " ++ marker "Creative" ++ " d"
   /\ map Dict.prompt (parse_response canonical_response)
      <> [" a 2. "; " b 3. "; " c 4. "; " d"])
  /\ (empty_segment_response
      = "" ++ marker "Concise" ++ "" ++ marker "Detailed" ++ " b "
        ++ marker "Structured" ++ " c " ++ marker "Creative" ++ " d"
      /\ map Dict.prompt (parse_response empty_segment_response)
         = [sentinel "Concise"; "b"; "c"; "d"]).
Proof.
  repeat split; try reflexivity. vm_compute. discriminate.
Qed.

(** C3, evaluated where it fails: the response has no marker for the style
    Detailed, and the prompt of that style is not its sentinel but the text
    of the style Concise. *)
Theorem parse_response_missing_marker :
  find missing_detailed_response (marker "Detailed") = -1
  /\ map Dict.prompt (parse_response missing_detailed_response)
     = ["Write a poem. **Structured**: List steps. **Creative**: Sing it";
        "Write a poem."; "List steps."; "Sing it."]
  /\ nth_error (map Dict.prompt (parse_response missing_detailed_response)) 1
     <> Some (sentinel "Detailed").
Proof.
  repeat split; try reflexivity. vm_compute. discriminate.
Qed.

(** ** The generation request *)

Lemma contains_intro (pre sub post : string) : contains (pre ++ sub ++ post) sub.
Proof. now exists pre, post. Qed.

(** The phrase of the creativity level stands in the generation request. *)
Lemma generate_meta_prompt_contains (rough_prompt : string) (creativity_level : Z) :
  (creativity_level > 7 ->
   contains (generate_meta_prompt rough_prompt creativity_level)
            "highly creative and innovative")
  /\ (creativity_level <= 4 ->
      contains (generate_meta_prompt rough_prompt creativity_level)
               "clear and straightforward").
Proof.
  split; intros Hlevel; unfold generate_meta_prompt, creativity_modifier.
  - destruct (Z.gtb_spec creativity_level 7); [|lia].
    rewrite <- (append_assoc _ rough_prompt), <- append_assoc.
    apply contains_intro.
  - destruct (Z.gtb_spec creativity_level 7); [lia|].
    destruct (Z.gtb_spec creativity_level 4); [lia|].
    rewrite <- (append_assoc _ rough_prompt), <- append_assoc.
    apply contains_intro.
Qed.

(** ** The stages that call the collaborators *)

Section EngineProperties.

Context `{Collaborators}.

Lemma try_except_reraise {A : Type} (m : M A) (st : State) :
  try_except m (fun e => raise e) st = m st.
Proof. unfold try_except, raise. now destruct (m st) as [[a | e] st']. Qed.

Lemma state_eta (st : State) :
  {| world := world st; requests := requests st |} = st.
Proof. now destruct st. Qed.

(** *** The test stage *)

Lemma complete_all_length (client : Client) (prompt : string) (n : nat) :
  forall w outs w',
    complete_all client prompt n w = (Ok outs, w') -> List.length outs = n.
Proof.
  induction n as [|n IH]; intros w outs w' Hc; simpl in Hc.
  - now inversion Hc.
  - destruct (complete client prompt w) as [[o | e] w1]; [|discriminate].
    destruct (complete_all client prompt n w1) as [[os | e] w2] eqn:E;
      [|discriminate].
    inversion Hc; subst. simpl. f_equal. exact (IH _ _ _ E).
Qed.

Lemma test_loop_complete_all (client : Client) (prompt : string) (n : nat) :
  forall i outputs st outs w',
    complete_all client prompt n (world st) = (Ok outs, w') ->
    test_loop client prompt n i outputs st
    = (Ok (List.app outputs
             (map (fun '(j, output) => "Iteration " ++ str j ++ ": " ++ output)
                  (enumerate outs (i + 1)))),
       {| world := w'; requests := requests st ++ repeat (client, prompt) n |}).
Proof.
  induction n as [|n IH]; intros i outputs st outs w' Hc; simpl in Hc.
  - inversion Hc; subst. simpl. unfold ret.
    now rewrite !app_nil_r, state_eta.
  - destruct (complete client prompt (world st)) as [[o | e] w1] eqn:E1;
      [|discriminate].
    destruct (complete_all client prompt n w1) as [[os | e] w2] eqn:E2;
      [|discriminate].
    inversion Hc; subst. simpl test_loop. unfold bind at 1, client_complete.
    rewrite E1.
    rewrite (IH (i + 1) _ _ os w') by exact E2.
    simpl. now rewrite <- !app_assoc.
Qed.

(** C10.  When the client of the model is obtained, [test_prompt] with 0
    iterations sends no request and returns the empty string; with [n]
    iterations whose calls all succeed it sends [n] requests and returns
    their outputs, labelled "Iteration 1: " to "Iteration n: " in call
    order and joined by single line feeds. *)
Theorem test_prompt_iterations (prompt model : string) (st : State)
  (client : Client) (w1 : World) :
  get_model_client model (world st) = (Ok client, w1) ->
  test_prompt prompt model 0 st
  = (Ok "", {| world := w1; requests := requests st |})
  /\ forall n outs w2,
       complete_all client prompt n w1 = (Ok outs, w2) ->
       test_prompt prompt model (Z.of_nat n) st
       = (Ok (join nl (labelled outs)),
          {| world := w2;
             requests := requests st ++ repeat (client, prompt) n |}).
Proof.
  intros Hclient.
  assert (Hgen : forall n outs w2,
             complete_all client prompt n w1 = (Ok outs, w2) ->
             test_prompt prompt model (Z.of_nat n) st
             = (Ok (join nl (labelled outs)),
                {| world := w2;
                   requests := requests st ++ repeat (client, prompt) n |})).
  { intros n outs w2 Hc.
    unfold test_prompt. rewrite try_except_reraise.
    unfold bind at 1, mc_get_model_client. rewrite Hclient.
    unfold bind. rewrite Nat2Z.id.
    rewrite (test_loop_complete_all client prompt n 0 [] _ outs w2) by exact Hc.
    reflexivity. }
  split; [|exact Hgen].
  specialize (Hgen 0%nat [] w1 eq_refl). simpl in Hgen.
  now rewrite app_nil_r in Hgen.
Qed.

(** *** The refiner *)

Lemma refine_prompt_returns (prompt output : string) (score : Z) (st : State) :
  exists refined st', refine_prompt prompt output score st = (Ok refined, st').
Proof.
  unfold refine_prompt, try_except.
  match goal with
  | |- context [match ?m st with _ => _ end] => destruct (m st) as [[a | e] st']
  end; unfold ret; eauto.
Qed.

(** C6.  [refine_prompt] never raises, and when the call of the model
    raises it returns the prompt it was given, unchanged. *)
Theorem refine_prompt_fallback (prompt output : string) (score : Z) (st : State) :
  (exists refined st', refine_prompt prompt output score st = (Ok refined, st'))
  /\ forall model rest client w1 e w2,
       MODEL_CONFIG_keys = model :: rest ->
       get_model_client model (world st) = (Ok client, w1) ->
       complete client (refine_meta_prompt prompt output score) w1
       = (Raise e, w2) ->
       refine_prompt prompt output score st
       = (Ok prompt,
          {| world := w2;
             requests := requests st
                         ++ [(client, refine_meta_prompt prompt output score)] |}).
Proof.
  split; [apply refine_prompt_returns|].
  intros model rest client w1 e w2 Hkeys Hclient Hcall.
  unfold refine_prompt, try_except, bind, first_model, mc_get_model_client,
    client_complete.
  rewrite Hkeys. unfold ret at 1. rewrite Hclient. simpl. rewrite Hcall.
  reflexivity.
Qed.

(** The fallback also covers a registry without models and a client that
    cannot be obtained. *)
Lemma refine_prompt_no_client (prompt output : string) (score : Z) (st : State) :
  (MODEL_CONFIG_keys = [] ->
   refine_prompt prompt output score st = (Ok prompt, st))
  /\ forall model rest e w1,
       MODEL_CONFIG_keys = model :: rest ->
       get_model_client model (world st) = (Raise e, w1) ->
       refine_prompt prompt output score st
       = (Ok prompt, {| world := w1; requests := requests st |}).
Proof.
  split.
  - intros Hkeys. unfold refine_prompt, try_except, bind, first_model.
    rewrite Hkeys. reflexivity.
  - intros model rest e w1 Hkeys Hclient.
    unfold refine_prompt, try_except, bind, first_model, mc_get_model_client.
    rewrite Hkeys. unfold ret at 1. rewrite Hclient. reflexivity.
Qed.

(** *** The generate stage *)

(** What [generate_prompts] returns is the segmentation of a response. *)
Lemma generate_prompts_parsed (rough_prompt : string) (creativity_level : Z)
  (st st' : State) (generated : list Dict.t) :
  generate_prompts rough_prompt creativity_level st = (Ok generated, st') ->
  exists response, generated = parse_response response.
Proof.
  unfold generate_prompts. rewrite try_except_reraise.
  unfold bind, first_model, mc_get_model_client, client_complete.
  destruct MODEL_CONFIG_keys as [|model rest]; [discriminate|].
  unfold ret at 1.
  destruct (get_model_client model (world st)) as [[client | e] w1];
    [|discriminate].
  simpl.
  destruct (complete client _ w1) as [[response | e] w2]; [|discriminate].
  unfold ret. intros Hg. inversion Hg. now exists response.
Qed.

(** The request that [generate_prompts] sends is the generation request. *)
Lemma generate_prompts_request (rough_prompt : string) (creativity_level : Z)
  (st : State) (model : string) (rest : list string) (client : Client)
  (w1 : World) :
  MODEL_CONFIG_keys = model :: rest ->
  get_model_client model (world st) = (Ok client, w1) ->
  requests (snd (generate_prompts rough_prompt creativity_level st))
  = List.app (requests st)
      [(client, generate_meta_prompt rough_prompt creativity_level)].
Proof.
  intros Hkeys Hclient.
  unfold generate_prompts. rewrite try_except_reraise.
  unfold bind, first_model, mc_get_model_client, client_complete.
  rewrite Hkeys. unfold ret at 1. rewrite Hclient. simpl.
  now destruct (complete client _ w1) as [[response | e] w2].
Qed.

(** C8.  For every rough idea, the only request that the generate stage
    sends is the generation request, and that request contains the phrase
    "highly creative and innovative" when the creativity level is above 7
    (as for 8), and the phrase "clear and straightforward" when it is at
    most 4 (as for 3). *)
Theorem generate_prompts_request_phrase (rough_prompt : string)
  (creativity_level : Z) (st : State) :
  (requests (snd (generate_prompts rough_prompt creativity_level st))
   = requests st
   \/ exists client,
        requests (snd (generate_prompts rough_prompt creativity_level st))
        = List.app (requests st)
            [(client, generate_meta_prompt rough_prompt creativity_level)])
  /\ (creativity_level > 7 ->
      contains (generate_meta_prompt rough_prompt creativity_level)
               "highly creative and innovative")
  /\ (creativity_level <= 4 ->
      contains (generate_meta_prompt rough_prompt creativity_level)
               "clear and straightforward").
Proof.
  split; [|apply generate_meta_prompt_contains].
  destruct MODEL_CONFIG_keys as [|model rest] eqn:Hkeys.
  - left. unfold generate_prompts. rewrite try_except_reraise.
    unfold bind, first_model. now rewrite Hkeys.
  - destruct (get_model_client model (world st)) as [[client | e] w1] eqn:Hclient.
    + right. exists client.
      exact (generate_prompts_request _ _ _ _ _ _ _ Hkeys Hclient).
    + left. unfold generate_prompts. rewrite try_except_reraise.
      unfold bind, first_model, mc_get_model_client.
      rewrite Hkeys. unfold ret at 1. now rewrite Hclient.
Qed.

(** *** The report *)

Lemma populated_inv (p : Dict.t) :
  populated p = true ->
  exists o s, Dict.output p = Some o /\ Dict.score p = Some s.
Proof.
  unfold populated. destruct (Dict.output p) as [o|]; [|discriminate].
  destruct (Dict.score p) as [s|]; [|discriminate]. eauto.
Qed.

Lemma report_blocks_populated (prompts : list Dict.t) :
  forallb populated prompts = true ->
  forall report, exists blocks,
    report_blocks report prompts = Ok (report ++ blocks).
Proof.
  induction prompts as [|p prompts IH]; intros Hpop report; simpl.
  - exists "". now rewrite append_nil_r.
  - simpl in Hpop. apply andb_prop in Hpop. destruct Hpop as [Hp Hpop].
    destruct (populated_inv p Hp) as [o [s [Ho Hs]]].
    unfold Dict.getitem_output, Dict.getitem_score. rewrite Ho, Hs.
    destruct (IH Hpop (report ++ report_block (Dict.id p) (Dict.style p)
                                  (Dict.prompt p) o s)) as [blocks Hb].
    rewrite Hb, append_assoc. eauto.
Qed.

Lemma scores_populated (prompts : list Dict.t) :
  forallb populated prompts = true ->
  exists l, scores prompts = Ok l /\ map Dict.score prompts = map Some l.
Proof.
  induction prompts as [|p prompts IH]; intros Hpop; simpl.
  - now exists [].
  - simpl in Hpop. apply andb_prop in Hpop. destruct Hpop as [Hp Hpop].
    destruct (populated_inv p Hp) as [o [s [Ho Hs]]].
    destruct (IH Hpop) as [l [Hl Hmap]].
    unfold Dict.getitem_score. rewrite Hs, Hl.
    exists (s :: l). simpl. now rewrite Hmap.
Qed.

Lemma max_from_spec (l : list Z) :
  forall m, (max_from m l = m \/ In (max_from m l) l)
            /\ m <= max_from m l
            /\ forall x, In x l -> x <= max_from m l.
Proof.
  unfold max_from. induction l as [|y l IH]; intros m; simpl.
  - repeat split; [now left | lia | tauto].
  - destruct (IH (if y >? m then y else m)) as [Hin [Hle Hall]].
    destruct (Z.gtb_spec y m) as [Hgt | Hgt].
    + repeat split; [right; destruct Hin; [left; congruence | now right] | lia |].
      intros x [<- | Hx]; [lia | now apply Hall].
    + repeat split; [destruct Hin; [now left | now right; right] | lia |].
      intros x [<- | Hx]; [lia | now apply Hall].
Qed.

Lemma py_max_spec (l : list Z) :
  l <> [] ->
  exists m, py_max l = Ok m /\ In m l /\ forall x, In x l -> x <= m.
Proof.
  destruct l as [|y l]; [congruence|]. intros _.
  destruct (max_from_spec l y) as [Hin [Hle Hall]].
  exists (max_from y l). repeat split.
  - destruct Hin as [-> | Hin]; [now left | now right].
  - intros x [<- | Hx]; [exact Hle | now apply Hall].
Qed.

Lemma highest_score_scores (prompts : list Dict.t) (l : list Z) (m : Z) :
  map Dict.score prompts = map Some l ->
  In m l -> (forall x, In x l -> x <= m) ->
  highest_score prompts m.
Proof.
  intros Hmap Hin Hall. split.
  - assert (Hs : In (Some m) (map Dict.score prompts))
      by (rewrite Hmap; now apply in_map).
    apply in_map_iff in Hs. destruct Hs as [p [Hp Hinp]]. eauto.
  - intros p s Hp Hs. apply Hall.
    assert (Hin' : In (Some s) (map Some l)).
    { rewrite <- Hmap, <- Hs. now apply in_map. }
    apply in_map_iff in Hin'. destruct Hin' as [x [Hx Hinx]]. congruence.
Qed.

Lemma footer_tail (x : string) :
  ".
Highest score: " ++ x ++ "/100.
Refinement improved the best prompt based on test feedback.
==================
"
  = "." ++ nl ++ ("Highest score: " ++ x ++ "/100.") ++ nl
    ++ "Refinement improved the best prompt based on test feedback." ++ nl
    ++ "==================" ++ nl.
Proof. rewrite !append_assoc. reflexivity. Qed.

Lemma append_assoc7 (a b c d e f g rest : string) :
  a ++ b ++ c ++ d ++ e ++ f ++ g ++ rest
  = (a ++ b ++ c ++ d ++ e ++ f ++ g) ++ rest.
Proof. now rewrite !append_assoc. Qed.

Lemma report_footer_highest (refined_prompt : string) (count : Z)
  (styles : string) (m : Z) :
  exists before,
    report_footer refined_prompt count styles m
    = before ++ nl ++ highest_score_line m ++ nl
      ++ "Refinement improved the best prompt based on test feedback." ++ nl
      ++ "==================" ++ nl.
Proof.
  unfold report_footer, highest_score_line.
  generalize (str m) (str count). intros x y.
  rewrite footer_tail. eexists. apply append_assoc7.
Qed.

(** On a sequence of prompts that is not empty and whose outputs and scores
    are set, the report is produced, and its third line from the end states
    the greatest score. *)
Lemma generate_report_populated (rough_prompt : string) (prompts : list Dict.t)
  (refined_prompt : string) (st : State) :
  prompts <> [] ->
  forallb populated prompts = true ->
  exists report st' m before,
    generate_report rough_prompt prompts refined_prompt st = (Ok report, st')
    /\ highest_score prompts m
    /\ report
       = before ++ nl ++ highest_score_line m ++ nl
         ++ "Refinement improved the best prompt based on test feedback." ++ nl
         ++ "==================" ++ nl.
Proof.
  intros Hne Hpop.
  unfold generate_report, bind, datetime_now_isoformat, lift.
  destruct (now_isoformat (world st)) as [now w].
  destruct (report_blocks_populated prompts Hpop (report_header now rough_prompt))
    as [blocks Hblocks].
  rewrite Hblocks.
  destruct (scores_populated prompts Hpop) as [l [Hl Hmap]].
  rewrite Hl.
  assert (Hlne : l <> []).
  { intros ->. destruct prompts; [congruence | discriminate]. }
  destruct (py_max_spec l Hlne) as [m [Hm [Hin Hall]]].
  rewrite Hm. unfold ret.
  destruct (report_footer_highest refined_prompt (Z.of_nat (List.length prompts))
              (join ", " (map Dict.style prompts)) m) as [before Hfooter].
  eexists _, _, m, ((report_header now rough_prompt ++ blocks) ++ before).
  split; [reflexivity|]. split.
  - exact (highest_score_scores prompts l m Hmap Hin Hall).
  - rewrite Hfooter. now rewrite !append_assoc.
Qed.

(** C9.  On every sequence of prompts that is not empty and whose outputs
    and scores are set, the report is produced without failure, and its
    "Highest score" line states exactly the greatest of the scores. *)
Theorem generate_report_highest_score (rough_prompt : string)
  (prompts : list Dict.t) (refined_prompt : string) (st : State) :
  prompts <> [] ->
  forallb populated prompts = true ->
  exists report st' m before,
    generate_report rough_prompt prompts refined_prompt st = (Ok report, st')
    /\ highest_score prompts m
    /\ report
       = before ++ nl ++ highest_score_line m ++ nl
         ++ "Refinement improved the best prompt based on test feedback." ++ nl
         ++ "==================" ++ nl.
Proof. apply generate_report_populated. Qed.

(** *** The orchestrator *)

Lemma bind_ok {A B : Type} (m : M A) (k : A -> M B) (st st' : State) (a : A) :
  m st = (Ok a, st') -> bind m k st = k a st'.
Proof. intros Hm. unfold bind. now rewrite Hm. Qed.

Lemma test_and_score_tested (model : string) (iterations : Z) (p : Dict.t)
  (st st' : State) (r : result string) :
  test_prompt (Dict.prompt p) model iterations st = (r, st') ->
  test_and_score model iterations p st = (Ok (tested p r), st').
Proof.
  intros Ht. unfold test_and_score, try_except, bind. rewrite Ht.
  now destruct r.
Qed.

Lemma for_each_run_tests (model : string) (iterations : Z) (l : list Dict.t) :
  forall st rs st',
    run_tests model iterations l st = (rs, st') ->
    for_each (test_and_score model iterations) l st
    = (Ok (map (fun '(p, r) => tested p r) (combine l rs)), st')
    /\ List.length rs = List.length l.
Proof.
  induction l as [|p l IH]; intros st rs st' Hr; simpl in Hr.
  - inversion Hr; subst. now split.
  - destruct (test_prompt (Dict.prompt p) model iterations st) as [r st1] eqn:Ht.
    destruct (run_tests model iterations l st1) as [rs' st2] eqn:Hrs.
    inversion Hr; subst.
    destruct (IH _ _ _ Hrs) as [Hfor Hlen].
    split; [|simpl; now rewrite Hlen].
    simpl for_each.
    rewrite (bind_ok _ _ _ _ _ (test_and_score_tested _ _ _ _ _ _ Ht)).
    now rewrite (bind_ok _ _ _ _ _ Hfor).
Qed.

Lemma tested_populated (l : list Dict.t) (rs : list (result string)) :
  forallb populated (map (fun '(p, r) => tested p r) (combine l rs)) = true.
Proof.
  revert rs. induction l as [|p l IH]; intros [|r rs]; simpl; try reflexivity.
  rewrite IH. now destruct r.
Qed.

Lemma nth_error_tested (l : list Dict.t) (rs : list (result string)) :
  forall j p r,
    nth_error l j = Some p -> nth_error rs j = Some r ->
    nth_error (map (fun '(p, r) => tested p r) (combine l rs)) j
    = Some (tested p r).
Proof.
  revert rs. induction l as [|q l IH]; intros rs j p r Hp Hr.
  - now destruct j.
  - destruct rs as [|r' rs]; [now destruct j|].
    destruct j as [|j]; simpl in *; [congruence | now apply IH].
Qed.

Lemma max_by_score_first_best (l : list Dict.t) :
  forall prefix best sb i,
    nth_error prefix i = Some best ->
    Dict.score best = Some sb ->
    (forall j p s, nth_error prefix j = Some p -> Dict.score p = Some s ->
                   s <= sb /\ ((j < i)%nat -> s < sb)) ->
    forallb populated l = true ->
    exists i' best',
      max_by_score best sb l = Ok best' /\ first_best (prefix ++ l) i' best'.
Proof.
  induction l as [|p l IH]; intros prefix best sb i Hbest Hsb Hinv Hpop.
  - exists i, best. split; [reflexivity|]. rewrite app_nil_r.
    split; [assumption | now exists sb].
  - simpl in Hpop. apply andb_prop in Hpop. destruct Hpop as [Hp Hpop].
    destruct (populated_inv p Hp) as [o [s [Ho Hs]]].
    assert (Hi : (i < List.length prefix)%nat)
      by (apply nth_error_Some; congruence).
    simpl. unfold Dict.getitem_score. rewrite Hs.
    replace (prefix ++ p :: l)%list with ((prefix ++ [p]) ++ l)%list
      by (now rewrite <- app_assoc).
    destruct (Z.gtb_spec s sb) as [Hgt | Hle].
    + apply (IH (prefix ++ [p])%list p s (List.length prefix)); auto.
      * now rewrite nth_error_app2, Nat.sub_diag by lia.
      * intros j q sq Hq Hsq.
        destruct (Nat.lt_ge_cases j (List.length prefix)) as [Hj | Hj].
        -- rewrite nth_error_app1 in Hq by assumption.
           destruct (Hinv j q sq Hq Hsq). lia.
        -- rewrite nth_error_app2 in Hq by assumption.
           destruct (j - List.length prefix)%nat as [|n]; simpl in Hq;
             [|now destruct n].
           inversion Hq; subst. split; [|lia].
           assert (sq = s) by congruence. lia.
    + apply (IH (prefix ++ [p])%list best sb i); auto.
      * now rewrite nth_error_app1 by assumption.
      * intros j q sq Hq Hsq.
        destruct (Nat.lt_ge_cases j (List.length prefix)) as [Hj | Hj].
        -- rewrite nth_error_app1 in Hq by assumption.
           exact (Hinv j q sq Hq Hsq).
        -- rewrite nth_error_app2 in Hq by assumption.
           destruct (j - List.length prefix)%nat as [|n]; simpl in Hq;
             [|now destruct n].
           inversion Hq; subst. split; [|lia].
           assert (sq = s) by congruence. lia.
Qed.

(** [max] with the key [score] selects the first prompt of greatest score. *)
Lemma best_prompt_first_best (prompts : list Dict.t) :
  prompts <> [] ->
  forallb populated prompts = true ->
  exists i best, best_prompt prompts = Ok best /\ first_best prompts i best.
Proof.
  destruct prompts as [|p l]; [congruence|]. intros _ Hpop.
  simpl in Hpop. apply andb_prop in Hpop. destruct Hpop as [Hp Hpop].
  destruct (populated_inv p Hp) as [o [s [Ho Hs]]].
  unfold best_prompt, Dict.getitem_score. rewrite Hs.
  apply (max_by_score_first_best l [p] p s 0%nat); auto.
  intros [|j] q sq Hq Hsq; simpl in Hq; [|now destruct j].
  inversion Hq; subst. split; [|lia].
  assert (sq = s) by congruence. lia.
Qed.

(** C1.  In a run where the test call of the prompt at index [k] raises and
    the test calls of the other prompts return, [run_studio] returns a
    result with exactly 4 prompts; the output of the prompt at index [k] is
    the error string and its score is 0; every other prompt carries the
    output of its test call and the score of that output; and the prompt
    that is refined is the first one of greatest score. *)
Theorem run_studio_isolates_failure (rough_prompt : string)
  (creativity_level : Z) (model : string) (iterations : Z) (st st0 st1 : State)
  (generated : list Dict.t) (outcomes : list (result string))
  (k : nat) (e : string) :
  generate_prompts rough_prompt creativity_level st = (Ok generated, st0) ->
  run_tests model iterations generated st0 = (outcomes, st1) ->
  nth_error outcomes k = Some (Raise e) ->
  (forall j r, j <> k -> nth_error outcomes j = Some r -> exists o, r = Ok o) ->
  exists res st',
    run_studio rough_prompt creativity_level model iterations st = (Ok res, st')
    /\ List.length (prompts res) = 4%nat
    /\ (exists p, nth_error generated k = Some p
                  /\ nth_error (prompts res) k
                     = Some (Dict.set_output_score p ("Error: " ++ e) 0))
    /\ (forall j p, j <> k -> nth_error generated j = Some p ->
          exists o, nth_error outcomes j = Some (Ok o)
                    /\ nth_error (prompts res) j
                       = Some (Dict.set_output_score p o
                                 (score_output o (Dict.prompt p))))
    /\ exists i best output score st2,
         first_best (prompts res) i best
         /\ Dict.output best = Some output
         /\ Dict.score best = Some score
         /\ refine_prompt (Dict.prompt best) output score st1
            = (Ok (refined_prompt res), st2).
Proof.
  intros Hgen Htests Hk Hothers.
  destruct (generate_prompts_parsed _ _ _ _ _ Hgen) as [response Hparsed].
  assert (Hlen : List.length generated = 4%nat)
    by (rewrite Hparsed; apply parse_response_length).
  destruct (for_each_run_tests _ _ _ _ _ _ Htests) as [Hfor Hlen'].
  set (tested_prompts := map (fun '(p, r) => tested p r)
                             (combine generated outcomes)) in *.
  assert (Hpop : forallb populated tested_prompts = true)
    by apply tested_populated.
  assert (Hlent : List.length tested_prompts = 4%nat).
  { unfold tested_prompts. rewrite length_map, length_combine. lia. }
  assert (Hne : tested_prompts <> []) by (intros E; now rewrite E in Hlent).
  destruct (best_prompt_first_best _ Hne Hpop) as [i [best [Hbest Hfirst]]].
  assert (Hbpop : populated best = true).
  { destruct Hfirst as [Hnth _]. apply nth_error_In in Hnth.
    exact (proj1 (forallb_forall _ _) Hpop best Hnth). }
  destruct (populated_inv best Hbpop) as [output [score [Hout Hscore]]].
  destruct (refine_prompt_returns (Dict.prompt best) output score st1)
    as [refined [st2 Hrefine]].
  destruct (generate_report_populated rough_prompt tested_prompts refined st2
              Hne Hpop) as [report [st3 [m [before [Hreport _]]]]].
  exists {| prompts := tested_prompts; refined_prompt := refined;
            report := report |}, st3.
  split.
  { unfold run_studio.
    rewrite (bind_ok _ _ _ _ _ Hgen), (bind_ok _ _ _ _ _ Hfor).
    unfold lift, bind at 1. rewrite Hbest.
    unfold bind at 1, Dict.getitem_output. rewrite Hout.
    unfold bind at 1, Dict.getitem_score. rewrite Hscore.
    rewrite (bind_ok _ _ _ _ _ Hrefine), (bind_ok _ _ _ _ _ Hreport).
    reflexivity. }
  split; [exact Hlent|]. simpl prompts. simpl refined_prompt.
  split; [|split].
  - destruct (nth_error generated k) as [p|] eqn:Hp.
    + exists p. split; [reflexivity|].
      exact (nth_error_tested _ _ _ _ _ Hp Hk).
    + apply nth_error_None in Hp.
      assert (k < List.length outcomes)%nat by (apply nth_error_Some; congruence).
      lia.
  - intros j p Hj Hp.
    destruct (nth_error outcomes j) as [r|] eqn:Hr.
    + destruct (Hothers j r Hj Hr) as [o ->].
      exists o. split; [reflexivity|].
      exact (nth_error_tested _ _ _ _ _ Hp Hr).
    + apply nth_error_None in Hr.
      assert (j < List.length generated)%nat by (apply nth_error_Some; congruence).
      lia.
  - exists i, best, output, score, st2. auto.
Qed.

End EngineProperties.

(** ** More on the output scorer *)

(** The final [min(score, 100)] never lowers the score: the score is the
    sum of the three buckets, a multiple of 10, and at most 90. *)
Theorem score_output_buckets (output prompt : string) :
  score_output output prompt
  = clarity_points output + relevance_points output prompt
    + length_points output
  /\ score_output output prompt <= 90
  /\ score_output output prompt mod 10 = 0.
Proof.
  unfold score_output, clarity_points, relevance_points, length_points.
  repeat match goal with
         | |- context [if ?b then _ else _] => destruct b
         end; repeat split; try reflexivity; discriminate.
Qed.

(** An output whose lowercase form has a banned word as a whole word
    ("Error" counts) does not get the 10 points, and scores at most 80. *)
Theorem score_output_banned (output prompt w : string) :
  In w banned_words ->
  whole_word w (lower output) ->
  clarity_points output <= 30 /\ score_output output prompt <= 80.
Proof.
  intros Hin Hw.
  assert (Hs : search_words banned_words (lower output) = true)
    by (apply (search_words_spec _ banned_words_proper); eauto).
  pose proof (relevance_points_range output prompt).
  pose proof (length_points_range output).
  unfold score_output, clarity_points. rewrite Hs. simpl negb. cbv iota.
  destruct ((word_count output >? 10)
            && (Z.of_nat (List.length (findall_terminal output)) >? 1)); lia.
Qed.

(** An output of at most 10 words fails the first clarity check and the
    length bucket: it scores at most 40. *)
Theorem score_output_short (output prompt : string) :
  word_count output <= 10 -> score_output output prompt <= 40.
Proof.
  intros Hw.
  pose proof (relevance_points_range output prompt).
  unfold score_output, clarity_points, length_points.
  destruct (Z.gtb_spec (word_count output) 10); [lia|]. simpl andb. cbv iota.
  destruct (Z.leb_spec 50 (word_count output)); [lia|]. simpl andb. cbv iota.
  destruct (Z.leb_spec 20 (word_count output)); [lia|]. simpl andb.
  destruct (Z.ltb_spec 500 (word_count output)); [lia|]. simpl.
  destruct (negb (search_words banned_words (lower output))); lia.
Qed.

(** A prompt without any word token (the empty prompt, or punctuation only)
    gives no relevance points, whatever the output: the division is by
    [max(0, 1)] and the quotient is 0. *)
Theorem relevance_points_no_keyword (output prompt : string) :
  findall_words (lower prompt) = [] ->
  relevance_points output prompt = 0 /\ score_output output prompt <= 60.
Proof.
  intros Hk.
  assert (Hc : common_keywords output prompt = 0).
  { unfold common_keywords, keywords. rewrite Hk. reflexivity. }
  assert (Hr : relevance_points output prompt = 0).
  { unfold relevance_points.
    destruct (Qgtb (overlap_ratio output prompt) (1 # 2)) eqn:Hq.
    - apply overlap_ratio_gt_half in Hq. rewrite Hc in Hq. lia.
    - now rewrite Hc. }
  split; [exact Hr|].
  pose proof (clarity_points_range output).
  pose proof (length_points_range output).
  unfold score_output. rewrite Hr. lia.
Qed.


(** *** Letter case *)

Lemma lower_char_idem (c : ascii) : lower_char (lower_char c) = lower_char c.
Proof. destruct c as [[] [] [] [] [] [] [] []]; reflexivity. Qed.

Lemma isspace_lower_char (c : ascii) : isspace (lower_char c) = isspace c.
Proof. destruct c as [[] [] [] [] [] [] [] []]; reflexivity. Qed.

Lemma terminal_lower_char (c : ascii) :
  (Ascii.eqb (lower_char c) "." || Ascii.eqb (lower_char c) "!"
   || Ascii.eqb (lower_char c) "?")%char
  = (Ascii.eqb c "." || Ascii.eqb c "!" || Ascii.eqb c "?")%char.
Proof. destruct c as [[] [] [] [] [] [] [] []]; reflexivity. Qed.

Lemma lower_idem (s : string) : lower (lower s) = lower s.
Proof.
  induction s as [|c s IH]; simpl; [reflexivity|].
  now rewrite lower_char_idem, IH.
Qed.

Lemma append_char_nonempty (w : string) (c : ascii) : w ++ String c "" <> "".
Proof. now destruct w. Qed.

Lemma runs_from_lower_length (p : ascii -> bool) :
  (forall c, p (lower_char c) = p c) ->
  forall s w w',
    (w = "" <-> w' = "") ->
    List.length (runs_from p w (lower s)) = List.length (runs_from p w' s).
Proof.
  intros Hp. induction s as [|c s IH]; intros w w' Hw; simpl.
  - destruct w, w'; simpl; try reflexivity;
      [destruct Hw as [Hw _] | destruct Hw as [_ Hw]];
      now specialize (Hw eq_refl).
  - rewrite Hp. destruct (p c).
    + apply IH. split; intros E; exfalso; revert E; apply append_char_nonempty.
    + destruct w, w'; simpl.
      * now apply IH.
      * destruct Hw as [Hw _]. now specialize (Hw eq_refl).
      * destruct Hw as [_ Hw]. now specialize (Hw eq_refl).
      * f_equal. now apply IH.
Qed.

Lemma word_count_lower (s : string) : word_count (lower s) = word_count s.
Proof.
  unfold word_count, split, runs. f_equal.
  apply runs_from_lower_length; [|tauto].
  intros c. now rewrite isspace_lower_char.
Qed.

Lemma findall_terminal_lower (s : string) :
  List.length (findall_terminal (lower s)) = List.length (findall_terminal s).
Proof.
  induction s as [|c s IH]; simpl; [reflexivity|].
  rewrite terminal_lower_char.
  destruct (Ascii.eqb c "." || Ascii.eqb c "!" || Ascii.eqb c "?")%char;
    simpl; now rewrite IH.
Qed.

Lemma keywords_lower (s : string) : keywords (lower s) = keywords s.
Proof. unfold keywords. now rewrite lower_idem. Qed.

Lemma score_output_lower (output prompt : string) :
  score_output (lower output) (lower prompt) = score_output output prompt.
Proof.
  unfold score_output, clarity_points, relevance_points, length_points,
    overlap_ratio, common_keywords.
  now rewrite !word_count_lower, findall_terminal_lower, lower_idem,
    !keywords_lower.
Qed.

(** The scorer does not see letter case: outputs that differ only in case,
    scored against prompts that differ only in case, get the same score. *)
Theorem score_output_case_insensitive (output output' prompt prompt' : string) :
  lower output = lower output' ->
  lower prompt = lower prompt' ->
  score_output output prompt = score_output output' prompt'.
Proof.
  intros Ho Hp.
  rewrite <- (score_output_lower output prompt),
          <- (score_output_lower output' prompt').
  now rewrite Ho, Hp.
Qed.


(** ** More on the response segmenter *)

Lemma rstrip_idem (s : string) : rstrip (rstrip s) = rstrip s.
Proof.
  induction s as [|c s IH]; simpl; [reflexivity|].
  destruct (rstrip s) as [|d r] eqn:E.
  - destruct (isspace c) eqn:Ec; simpl; [reflexivity | now rewrite Ec].
  - change (rstrip (String c (String d r))) with
      (match rstrip (String d r) with
       | "" => if isspace c then "" else String c ""
       | r' => String c r'
       end).
    now rewrite IH.
Qed.

Lemma lstrip_head (s : string) :
  match lstrip s with "" => True | String c _ => isspace c = false end.
Proof.
  induction s as [|c s IH]; simpl; [exact I|].
  destruct (isspace c) eqn:E; [exact IH | exact E].
Qed.

Lemma rstrip_cons_nonspace (c : ascii) (s : string) :
  isspace c = false -> exists r, rstrip (String c s) = String c r.
Proof.
  intros Hc. simpl. destruct (rstrip s); rewrite ?Hc; eauto.
Qed.

Lemma strip_idem (s : string) : strip (strip s) = strip s.
Proof.
  unfold strip. pose proof (lstrip_head s) as Hh.
  destruct (lstrip s) as [|c t]; [reflexivity|].
  destruct (rstrip_cons_nonspace c t Hh) as [r Hr].
  rewrite Hr. simpl lstrip. rewrite Hh, <- Hr. apply rstrip_idem.
Qed.

Lemma nonempty_true (s : string) : nonempty s = true -> s <> "".
Proof. now destruct s. Qed.

Lemma parse_style_trimmed (response : string) (idx : Z) (style : string) :
  strip (sentinel style) = sentinel style ->
  Dict.prompt (parse_style response idx style) <> ""
  /\ strip (Dict.prompt (parse_style response idx style))
     = Dict.prompt (parse_style response idx style).
Proof.
  intros Hs. unfold parse_style.
  match goal with
  | |- context [nonempty ?t] => destruct (nonempty t) eqn:E
  end; simpl.
  - split; [now apply nonempty_true | apply strip_idem].
  - split; [discriminate | exact Hs].
Qed.

(** Whatever the response, the segmenter returns the four styles with the
    ids 1 to 4 in order, without output or score, and the text of every
    prompt is not empty and has no whitespace at either end. *)
Theorem parse_response_invariant (response : string) :
  map (fun p => (Dict.id p, Dict.style p, Dict.output p, Dict.score p))
      (parse_response response)
  = [(1, "Concise", None, None); (2, "Detailed", None, None);
     (3, "Structured", None, None); (4, "Creative", None, None)]
  /\ Forall (fun p => Dict.prompt p <> ""
                      /\ strip (Dict.prompt p) = Dict.prompt p)
            (parse_response response).
Proof.
  split; [apply parse_response_shape|].
  unfold parse_response. simpl map.
  repeat constructor; apply parse_style_trimmed; reflexivity.
Qed.

(** *** Slices that come out empty *)

Lemma slice_empty (s : string) (a b : Z) :
  0 <= b -> b <= a -> slice s a b = "".
Proof.
  intros Hb Hab. unfold slice, slice_bound.
  destruct (Z.ltb_spec a 0); [lia|]. destruct (Z.ltb_spec b 0); [lia|].
  replace (Z.to_nat (Z.min b (len s) - Z.min a (len s))) with 0%nat by lia.
  now destruct (drop _ s).
Qed.

Lemma parse_style_empty (response : string) (idx : Z) (style : string) :
  (forall start_idx end_idx,
      strip (slice response start_idx end_idx) = "") ->
  parse_style response idx style = sentinel_prompt idx style.
Proof.
  intros Hs. unfold parse_style. now rewrite Hs.
Qed.

Lemma parse_style_out_of_order (response : string) (idx : Z)
  (style next : string) :
  idx < 4 ->
  nth (Z.to_nat (idx mod 4)) PROMPT_STYLES "" = next ->
  0 <= find response (marker next)
    <= find response (marker style) + len (marker style) ->
  parse_style response idx style = sentinel_prompt idx style.
Proof.
  intros Hidx Hnext [Hlo Hhi]. unfold parse_style.
  change (Z.of_nat (List.length PROMPT_STYLES)) with 4.
  apply Z.ltb_lt in Hidx. rewrite Hidx, Hnext.
  now rewrite slice_empty.
Qed.

(** A marker out of order: when the marker of the next style is first found
    at or before the end of the marker of a style (wherever that end is
    taken to be when the style's own marker is missing), the prompt of the
    style is its sentinel. *)
Theorem parse_response_out_of_order (response : string) (i : nat)
  (style next : string) :
  In (i, style, next)
     [(0%nat, "Concise", "Detailed"); (1%nat, "Detailed", "Structured");
      (2%nat, "Structured", "Creative")] ->
  0 <= find response (marker next)
    <= find response (marker style) + len (marker style) ->
  nth_error (parse_response response) i
  = Some (sentinel_prompt (Z.of_nat i + 1) style).
Proof.
  intros Hin Hfind. simpl in Hin.
  destruct Hin as [E | [E | [E | []]]]; inversion E; subst;
    unfold parse_response; simpl map; simpl nth_error; f_equal;
    (eapply parse_style_out_of_order; [lia | reflexivity | exact Hfind]).
Qed.

(** *** Responses of whitespace *)

Lemma string_forall_drop (p : ascii -> bool) (n : nat) (s : string) :
  string_forall p s = true -> string_forall p (drop n s) = true.
Proof.
  revert s. induction n as [|n IH]; intros [|c s] Hs; simpl; auto.
  simpl in Hs. apply andb_prop in Hs. now apply IH.
Qed.

Lemma string_forall_take (p : ascii -> bool) (n : nat) (s : string) :
  string_forall p s = true -> string_forall p (take n s) = true.
Proof.
  revert s. induction n as [|n IH]; intros [|c s] Hs; simpl; auto.
  simpl in Hs. apply andb_prop in Hs. destruct Hs as [Hc Hs].
  now rewrite Hc, IH.
Qed.

Lemma lstrip_spaces (s : string) : string_forall isspace s = true -> lstrip s = "".
Proof.
  induction s as [|c s IH]; simpl; [reflexivity|]. intros Hs.
  apply andb_prop in Hs. destruct Hs as [Hc Hs]. rewrite Hc. now apply IH.
Qed.

(** A response that is empty or made of whitespace only yields the four
    sentinels. *)
Theorem parse_response_whitespace (response : string) :
  string_forall isspace response = true ->
  parse_response response
  = [sentinel_prompt 1 "Concise"; sentinel_prompt 2 "Detailed";
     sentinel_prompt 3 "Structured"; sentinel_prompt 4 "Creative"].
Proof.
  intros Hs.
  assert (Hstrip : forall a b, strip (slice response a b) = "").
  { intros a b. unfold strip, slice. rewrite lstrip_spaces; [reflexivity|].
    now apply string_forall_take, string_forall_drop. }
  unfold parse_response. simpl map.
  now rewrite !(parse_style_empty response _ _ Hstrip).
Qed.


(** ** More on the refinement request *)

Lemma audience_words_proper : Forall proper_word audience_words.
Proof. repeat constructor. Qed.

Lemma refinements_each (prompt output : string) (score : Z) :
  (In "Add more specific instructions for clarity."
      (refinements prompt output score) <-> score < 80)
  /\ (In "Increase the expected output length."
         (refinements prompt output score) <-> word_count output < 50)
  /\ (In "Specify tone and target audience."
         (refinements prompt output score)
      <-> ~ exists w, In w audience_words /\ whole_word w (lower prompt))
  /\ (refinements prompt output score = []
      <-> 80 <= score /\ 50 <= word_count output
          /\ exists w, In w audience_words /\ whole_word w (lower prompt)).
Proof.
  pose proof (search_words_spec _ audience_words_proper (lower prompt)) as Hspec.
  unfold refinements. fold audience_words.
  destruct (search_words audience_words (lower prompt)) eqn:Hs; simpl negb;
    destruct (Z.ltb_spec score 80); destruct (Z.ltb_spec (word_count output) 50);
    repeat split; simpl; intros;
    repeat match goal with
           | H : _ \/ _ |- _ => destruct H
           | H : _ /\ _ |- _ => destruct H
           | H : False |- _ => destruct H
           | H : _ = _ :> string |- _ => discriminate H
           | H : _ = _ :> list string |- _ => discriminate H
           end;
    try lia; try tauto; try discriminate;
    try (apply Hspec; reflexivity);
    try (intros Hw; apply Hspec in Hw; discriminate);
    try (exfalso; match goal with
                  | H : ~ _ |- _ => apply H; apply Hspec; reflexivity
                  end);
    try (match goal with
         | H : exists _, _ |- _ => apply Hspec in H; discriminate
         end).
Qed.


Lemma none_tail (a p b x c y : string) :
  a ++ p ++ b ++ x ++ c ++ y ++ "/100. Suggested refinements: " ++ "None"
    ++ ". Return the refined prompt.
"
  = (a ++ p ++ b ++ x ++ c ++ y ++ "/100. ")
    ++ "Suggested refinements: None." ++ " Return the refined prompt.
".
Proof. rewrite !append_assoc. reflexivity. Qed.

Lemma refine_meta_prompt_none (prompt output : string) (score : Z) :
  refinements prompt output score = [] ->
  contains (refine_meta_prompt prompt output score)
           "Suggested refinements: None.".
Proof.
  intros Hr. unfold refine_meta_prompt. rewrite Hr. simpl join. simpl nonempty.
  cbv iota. generalize (str score) (upto 200 output). intros y x.
  rewrite none_tail. apply contains_intro.
Qed.

(** Each suggestion is made exactly when its rule fires: more specific
    instructions below a score of 80, a longer output below 50 words, tone
    and audience when the lowercase prompt has none of the words "tone",
    "style" and "audience" as a whole word.  No suggestion is made exactly
    when no rule fires, and the request then reads "Suggested refinements:
    None.". *)
Theorem refinements_rules (prompt output : string) (score : Z) :
  (In "Add more specific instructions for clarity."
      (refinements prompt output score) <-> score < 80)
  /\ (In "Increase the expected output length."
         (refinements prompt output score) <-> word_count output < 50)
  /\ (In "Specify tone and target audience."
         (refinements prompt output score)
      <-> ~ exists w, In w audience_words /\ whole_word w (lower prompt))
  /\ (refinements prompt output score = []
      <-> 80 <= score /\ 50 <= word_count output
          /\ exists w, In w audience_words /\ whole_word w (lower prompt))
  /\ (refinements prompt output score = [] ->
      contains (refine_meta_prompt prompt output score)
               "Suggested refinements: None.").
Proof.
  destruct (refinements_each prompt output score) as [H1 [H2 [H3 H4]]].
  split; [exact H1 | split; [exact H2 | split; [exact H3 | split]]];
    [exact H4 | apply refine_meta_prompt_none].
Qed.


(** ** More on the stages that call the collaborators *)

Section EngineExtras.

Context `{Collaborators}.

(** *** The test stage when a call fails *)

Lemma test_loop_failure (client : Client) (prompt e : string) (w2 w3 : World) :
  complete client prompt w2 = (Raise e, w3) ->
  forall k n i outputs st outs,
    (k < n)%nat ->
    complete_all client prompt k (world st) = (Ok outs, w2) ->
    test_loop client prompt n i outputs st
    = (Raise e,
       {| world := w3;
          requests := requests st ++ repeat (client, prompt) (S k) |}).
Proof.
  intros Hfail. induction k as [|k IH]; intros n i outputs st outs Hk Hc;
    (destruct n as [|n]; [lia|]); simpl in Hc.
  - inversion Hc; subst. simpl test_loop. unfold bind, client_complete.
    now rewrite Hfail.
  - destruct (complete client prompt (world st)) as [[o | e'] w1] eqn:E1;
      [|discriminate].
    destruct (complete_all client prompt k w1) as [[os | e'] w2'] eqn:E2;
      [|discriminate].
    inversion Hc; subst. simpl test_loop. unfold bind at 1, client_complete.
    rewrite E1.
    rewrite (IH n (i + 1) _ {| world := w1;
                               requests := requests st ++ [(client, prompt)] |}
               os) by (simpl; auto; lia).
    simpl. now rewrite <- app_assoc.
Qed.

(** When the first [k] calls of a test return and the next one raises, with
    [k] below the number of iterations, [test_prompt] raises the same
    exception after [k + 1] requests: the outputs obtained so far are lost,
    and no further call is made. *)
Theorem test_prompt_failure (prompt model : string) (iterations : Z)
  (st : State) (client : Client) (w1 w2 w3 : World) (k : nat)
  (outs : list string) (e : string) :
  get_model_client model (world st) = (Ok client, w1) ->
  complete_all client prompt k w1 = (Ok outs, w2) ->
  complete client prompt w2 = (Raise e, w3) ->
  Z.of_nat k < iterations ->
  test_prompt prompt model iterations st
  = (Raise e,
     {| world := w3;
        requests := requests st ++ repeat (client, prompt) (S k) |}).
Proof.
  intros Hclient Hall Hfail Hk.
  unfold test_prompt. rewrite try_except_reraise.
  unfold bind at 1, mc_get_model_client. rewrite Hclient.
  unfold bind.
  rewrite (test_loop_failure client prompt e w2 w3 Hfail k (Z.to_nat iterations)
             0 [] _ outs) by (simpl; auto; lia).
  reflexivity.
Qed.

(** With a number of iterations that is zero or negative, [test_prompt]
    sends no request, and returns the empty string when the client of the
    model is obtained. *)
Theorem test_prompt_no_iteration (prompt model : string) (iterations : Z)
  (st : State) :
  iterations <= 0 ->
  requests (snd (test_prompt prompt model iterations st)) = requests st
  /\ forall client w1,
       get_model_client model (world st) = (Ok client, w1) ->
       test_prompt prompt model iterations st
       = (Ok "", {| world := w1; requests := requests st |}).
Proof.
  intros Hi. unfold test_prompt. rewrite try_except_reraise.
  unfold bind, mc_get_model_client.
  replace (Z.to_nat iterations) with 0%nat by lia.
  destruct (get_model_client model (world st)) as [[client | e] w1]; simpl.
  - split; [reflexivity|]. intros client' w1' E. now inversion E.
  - split; [reflexivity|]. intros client' w1' E. discriminate.
Qed.

(** When the client of the model cannot be obtained, [test_prompt] raises
    the same exception without sending a request, whatever the number of
    iterations. *)
Lemma test_prompt_no_client (prompt model : string) (iterations : Z)
  (st : State) (e : string) (w1 : World) :
  get_model_client model (world st) = (Raise e, w1) ->
  test_prompt prompt model iterations st
  = (Raise e, {| world := w1; requests := requests st |}).
Proof.
  intros Hclient. unfold test_prompt. rewrite try_except_reraise.
  unfold bind, mc_get_model_client. now rewrite Hclient.
Qed.

(** *** The generate stage *)

(** What [generate_prompts] does in each case: with an empty registry it
    raises [IndexError]; when the client of the first model cannot be
    obtained, or when its call raises, it raises the same exception; when
    the call returns, it returns the segmentation of the response.  The
    request goes to the first model of the registry. *)
Lemma generate_prompts_cases (rough_prompt : string) (creativity_level : Z)
  (st : State) :
  (MODEL_CONFIG_keys = [] ->
   generate_prompts rough_prompt creativity_level st
   = (Raise "list index out of range", st))
  /\ forall model rest,
       MODEL_CONFIG_keys = model :: rest ->
       (forall e w1,
           get_model_client model (world st) = (Raise e, w1) ->
           generate_prompts rough_prompt creativity_level st
           = (Raise e, {| world := w1; requests := requests st |}))
       /\ forall client w1 r w2,
            get_model_client model (world st) = (Ok client, w1) ->
            complete client (generate_meta_prompt rough_prompt creativity_level)
              w1 = (r, w2) ->
            generate_prompts rough_prompt creativity_level st
            = (match r with
               | Ok response => Ok (parse_response response)
               | Raise e => Raise e
               end,
               {| world := w2;
                  requests :=
                    requests st
                    ++ [(client,
                         generate_meta_prompt rough_prompt creativity_level)] |}).
Proof.
  split; [|intros model rest Hkeys; split].
  - intros Hkeys. unfold generate_prompts. rewrite try_except_reraise.
    unfold bind, first_model. now rewrite Hkeys.
  - intros e w1 Hclient. unfold generate_prompts. rewrite try_except_reraise.
    unfold bind, first_model, mc_get_model_client.
    rewrite Hkeys. unfold ret at 1. now rewrite Hclient.
  - intros client w1 r w2 Hclient Hcall.
    unfold generate_prompts. rewrite try_except_reraise.
    unfold bind, first_model, mc_get_model_client, client_complete.
    rewrite Hkeys. unfold ret at 1. rewrite Hclient. simpl.
    rewrite Hcall. now destruct r.
Qed.

(** [run_studio] raises what the generate stage raises, in the same state. *)
Lemma run_studio_generation_raises (rough_prompt : string)
  (creativity_level : Z) (model : string) (iterations : Z) (st st' : State)
  (e : string) :
  generate_prompts rough_prompt creativity_level st = (Raise e, st') ->
  run_studio rough_prompt creativity_level model iterations st = (Raise e, st').
Proof.
  intros Hgen. unfold run_studio, bind at 1. now rewrite Hgen.
Qed.

(** A failure of the generate stage is fatal.  With an empty registry
    [run_studio] raises [IndexError] without any call; when the client of
    the first model cannot be obtained it raises the same exception without
    any request; when the generation call raises it raises the same
    exception after that one request.  In each case no test, refinement or
    report follows. *)
Theorem run_studio_generation_fatal (rough_prompt : string)
  (creativity_level : Z) (model : string) (iterations : Z) (st : State) :
  (MODEL_CONFIG_keys = [] ->
   run_studio rough_prompt creativity_level model iterations st
   = (Raise "list index out of range", st))
  /\ forall first rest,
       MODEL_CONFIG_keys = first :: rest ->
       (forall e w1,
           get_model_client first (world st) = (Raise e, w1) ->
           run_studio rough_prompt creativity_level model iterations st
           = (Raise e, {| world := w1; requests := requests st |}))
       /\ forall client w1 e w2,
            get_model_client first (world st) = (Ok client, w1) ->
            complete client (generate_meta_prompt rough_prompt creativity_level)
              w1 = (Raise e, w2) ->
            run_studio rough_prompt creativity_level model iterations st
            = (Raise e,
               {| world := w2;
                  requests :=
                    requests st
                    ++ [(client,
                         generate_meta_prompt rough_prompt creativity_level)] |}).
Proof.
  destruct (generate_prompts_cases rough_prompt creativity_level st)
    as [Hempty Hfirst].
  split; [|intros first rest Hkeys; destruct (Hfirst first rest Hkeys)
                                      as [Hclient Hcall]; split].
  - intros Hkeys. apply run_studio_generation_raises. now apply Hempty.
  - intros e w1 Hc. apply run_studio_generation_raises. now apply Hclient.
  - intros client w1 e w2 Hc Hr. apply run_studio_generation_raises.
    exact (Hcall client w1 (Raise e) w2 Hc Hr).
Qed.

(** *** The report, in closed form *)

Lemma report_blocks_join (prompts : list Dict.t) :
  forallb populated prompts = true ->
  forall report,
    report_blocks report prompts
    = Ok (report ++ join "" (map block_of prompts)).
Proof.
  induction prompts as [|p prompts IH]; intros Hpop report.
  - simpl. now rewrite append_nil_r.
  - simpl in Hpop. apply andb_prop in Hpop. destruct Hpop as [Hp Hpop].
    destruct (populated_inv p Hp) as [o [s [Ho Hs]]].
    cbn [report_blocks]. unfold Dict.getitem_output, Dict.getitem_score.
    rewrite Ho, Hs, (IH Hpop), append_assoc. do 2 f_equal.
    simpl map.
    replace (block_of p)
      with (report_block (Dict.id p) (Dict.style p) (Dict.prompt p) o s)
      by (unfold block_of; now rewrite Ho, Hs).
    destruct (map block_of prompts); simpl join; [now rewrite append_nil_r|].
    reflexivity.
Qed.

Lemma report_blocks_unpopulated (prompts : list Dict.t) :
  forallb populated prompts = false ->
  forall report, exists e, report_blocks report prompts = Raise e.
Proof.
  induction prompts as [|p prompts IH]; intros Hpop report; simpl in *.
  - discriminate.
  - unfold Dict.getitem_output, Dict.getitem_score.
    unfold populated in Hpop at 1.
    destruct (Dict.output p) as [o|]; [|eauto].
    destruct (Dict.score p) as [s|]; [|eauto].
    simpl in Hpop. now apply IH.
Qed.

(** The report is the header, then one block per prompt in the order of the
    list, then the footer with the number of prompts, their styles and the
    greatest score; producing it reads the clock once and sends no
    request. *)
Theorem generate_report_closed_form (rough_prompt : string)
  (prompts : list Dict.t) (refined_prompt : string) (st : State)
  (now : string) (w : World) :
  prompts <> [] ->
  forallb populated prompts = true ->
  now_isoformat (world st) = (now, w) ->
  exists m,
    highest_score prompts m
    /\ generate_report rough_prompt prompts refined_prompt st
       = (Ok (report_header now rough_prompt
              ++ join "" (map block_of prompts)
              ++ report_footer refined_prompt (Z.of_nat (List.length prompts))
                   (join ", " (map Dict.style prompts)) m),
          {| world := w; requests := requests st |}).
Proof.
  intros Hne Hpop Hnow.
  destruct (scores_populated prompts Hpop) as [l [Hl Hmap]].
  assert (Hlne : l <> []).
  { intros ->. destruct prompts; [congruence | discriminate]. }
  destruct (py_max_spec l Hlne) as [m [Hm [Hin Hall]]].
  exists m. split; [exact (highest_score_scores prompts l m Hmap Hin Hall)|].
  unfold generate_report, bind, datetime_now_isoformat, lift.
  rewrite Hnow, (report_blocks_join prompts Hpop), Hl, Hm. unfold ret.
  now rewrite append_assoc.
Qed.

(** [generate_report] returns a report exactly when the list of prompts is
    not empty and every prompt has its output and its score; otherwise it
    raises ([ValueError] from [max] on the empty list, [KeyError] on a
    missing key). *)
Theorem generate_report_returns_iff (rough_prompt : string)
  (prompts : list Dict.t) (refined_prompt : string) (st : State) :
  (exists report st',
      generate_report rough_prompt prompts refined_prompt st = (Ok report, st'))
  <-> prompts <> [] /\ forallb populated prompts = true.
Proof.
  split.
  - intros [report [st' Hr]].
    unfold generate_report, bind, datetime_now_isoformat, lift in Hr.
    destruct (now_isoformat (world st)) as [now w].
    destruct (forallb populated prompts) eqn:Hpop.
    + split; [|reflexivity]. intros ->. simpl in Hr. discriminate.
    + destruct (report_blocks_unpopulated prompts Hpop
                  (report_header now rough_prompt)) as [e He].
      rewrite He in Hr. discriminate.
  - intros [Hne Hpop].
    destruct (generate_report_populated rough_prompt prompts refined_prompt st
                Hne Hpop) as [report [st' [_ [_ [Hr _]]]]].
    eauto.
Qed.

(** *** The orchestrator once the generate stage has returned *)

Lemma run_studio_decomposed (rough_prompt : string) (creativity_level : Z)
  (model : string) (iterations : Z) (st st0 : State) (generated : list Dict.t) :
  generate_prompts rough_prompt creativity_level st = (Ok generated, st0) ->
  exists outcomes st1 i best output score refined st2 report st3 m before,
    run_tests model iterations generated st0 = (outcomes, st1)
    /\ List.length generated = 4%nat
    /\ List.length outcomes = 4%nat
    /\ first_best (tested_prompts generated outcomes) i best
    /\ Dict.output best = Some output
    /\ Dict.score best = Some score
    /\ refine_prompt (Dict.prompt best) output score st1 = (Ok refined, st2)
    /\ generate_report rough_prompt (tested_prompts generated outcomes) refined
         st2 = (Ok report, st3)
    /\ highest_score (tested_prompts generated outcomes) m
    /\ report
       = before ++ nl ++ highest_score_line m ++ nl
         ++ "Refinement improved the best prompt based on test feedback." ++ nl
         ++ "==================" ++ nl
    /\ run_studio rough_prompt creativity_level model iterations st
       = (Ok {| prompts := tested_prompts generated outcomes;
                refined_prompt := refined;
                report := report |}, st3).
Proof.
  intros Hgen.
  destruct (generate_prompts_parsed _ _ _ _ _ Hgen) as [response Hparsed].
  assert (Hlen : List.length generated = 4%nat)
    by (rewrite Hparsed; apply parse_response_length).
  destruct (run_tests model iterations generated st0) as [outcomes st1] eqn:Htests.
  destruct (for_each_run_tests _ _ _ _ _ _ Htests) as [Hfor Hlen'].
  fold (tested_prompts generated outcomes) in Hfor.
  assert (Hpop : forallb populated (tested_prompts generated outcomes) = true)
    by apply tested_populated.
  assert (Hlent : List.length (tested_prompts generated outcomes) = 4%nat).
  { unfold tested_prompts. rewrite length_map, length_combine. lia. }
  assert (Hne : tested_prompts generated outcomes <> [])
    by (intros E; now rewrite E in Hlent).
  destruct (best_prompt_first_best _ Hne Hpop) as [i [best [Hbest Hfirst]]].
  assert (Hbpop : populated best = true).
  { destruct Hfirst as [Hnth _]. apply nth_error_In in Hnth.
    exact (proj1 (forallb_forall _ _) Hpop best Hnth). }
  destruct (populated_inv best Hbpop) as [output [score [Hout Hscore]]].
  destruct (refine_prompt_returns (Dict.prompt best) output score st1)
    as [refined [st2 Hrefine]].
  destruct (generate_report_populated rough_prompt
              (tested_prompts generated outcomes) refined st2 Hne Hpop)
    as [report [st3 [m [before [Hreport [Hm Hline]]]]]].
  exists outcomes, st1, i, best, output, score, refined, st2, report, st3, m,
    before.
  repeat (split; [reflexivity || assumption || lia|]).
  unfold run_studio.
  rewrite (bind_ok _ _ _ _ _ Hgen), (bind_ok _ _ _ _ _ Hfor).
  unfold lift, bind at 1. rewrite Hbest.
  unfold bind at 1, Dict.getitem_output. rewrite Hout.
  unfold bind at 1, Dict.getitem_score. rewrite Hscore.
  rewrite (bind_ok _ _ _ _ _ Hrefine), (bind_ok _ _ _ _ _ Hreport).
  reflexivity.
Qed.

Lemma tested_prompts_fields (generated : list Dict.t) :
  forall outcomes,
    List.length outcomes = List.length generated ->
    map (fun p => (Dict.id p, Dict.style p, Dict.prompt p))
        (tested_prompts generated outcomes)
    = map (fun p => (Dict.id p, Dict.style p, Dict.prompt p)) generated.
Proof.
  unfold tested_prompts.
  induction generated as [|p l IH]; intros [|r rs] Hlen; simpl in *;
    try reflexivity; try discriminate.
  rewrite IH by lia. now destruct r.
Qed.

Lemma tested_prompts_scored (generated : list Dict.t)
  (outcomes : list (result string)) :
  Forall (fun p => exists o s, Dict.output p = Some o /\ Dict.score p = Some s
                               /\ 0 <= s <= 90)
         (tested_prompts generated outcomes).
Proof.
  unfold tested_prompts. revert outcomes.
  induction generated as [|p l IH]; intros [|r rs]; simpl; constructor;
    [|apply IH].
  destruct r as [o | e]; simpl.
  - exists o, (score_output o (Dict.prompt p)).
    repeat split; apply score_output_range.
  - exists ("Error: " ++ e), 0. repeat split; lia.
Qed.

(** Once the generate stage has returned, [run_studio] returns, whatever the
    test calls and the refinement call do: the result has the four prompts
    of the generate stage, with their ids, styles and texts in the same
    order, each with an output and a score between 0 and 90. *)
Theorem run_studio_returns (rough_prompt : string) (creativity_level : Z)
  (model : string) (iterations : Z) (st st0 : State) (generated : list Dict.t) :
  generate_prompts rough_prompt creativity_level st = (Ok generated, st0) ->
  exists res st',
    run_studio rough_prompt creativity_level model iterations st = (Ok res, st')
    /\ map (fun p => (Dict.id p, Dict.style p)) (prompts res)
       = [(1, "Concise"); (2, "Detailed"); (3, "Structured"); (4, "Creative")]
    /\ map Dict.prompt (prompts res) = map Dict.prompt generated
    /\ Forall (fun p => exists o s,
                   Dict.output p = Some o /\ Dict.score p = Some s
                   /\ 0 <= s <= 90)
              (prompts res).
Proof.
  intros Hgen.
  destruct (run_studio_decomposed _ _ model iterations _ _ _ Hgen)
    as [outcomes [st1 [i [best [output [score [refined [st2 [report [st3
       [m [before [Htests [Hlen [Hlen' [_ [_ [_ [_ [_ [_ [_ Hrun]]]]]]]]]]]]]]]]]]]]]].
  eexists _, _. split; [exact Hrun|]. simpl prompts.
  pose proof (tested_prompts_fields generated outcomes ltac:(lia)) as Hfields.
  destruct (generate_prompts_parsed _ _ _ _ _ Hgen) as [response Hparsed].
  split; [|split].
  - apply (f_equal (map (fun t : Z * string * string => (fst (fst t), snd (fst t)))))
      in Hfields.
    rewrite !map_map in Hfields. simpl in Hfields. rewrite Hfields, Hparsed.
    pose proof (parse_response_shape response) as Hshape.
    apply (f_equal (map (fun t : Z * string * option string * option Z =>
                           (fst (fst (fst t)), snd (fst (fst t)))))) in Hshape.
    rewrite map_map in Hshape. exact Hshape.
  - apply (f_equal (map (fun t : Z * string * string => snd t))) in Hfields.
    rewrite !map_map in Hfields. exact Hfields.
  - apply tested_prompts_scored.
Qed.

Lemma first_best_highest (l : list Dict.t) (i : nat) (best : Dict.t) (sb m : Z) :
  first_best l i best -> Dict.score best = Some sb -> highest_score l m ->
  m = sb.
Proof.
  intros [Hnth [sb' [Hsb' Hall]]] Hsb [[p [Hin Hp]] Hmax].
  assert (sb' = sb) by congruence. subst sb'.
  assert (sb <= m) by (apply (Hmax best); [eapply nth_error_In; eauto | auto]).
  apply In_nth_error in Hin. destruct Hin as [j Hj].
  destruct (Hall j p m Hj Hp). lia.
Qed.

(** The report and the refinement agree: the score on the "Highest score"
    line of the report that [run_studio] returns is the score of the prompt
    that was refined, the first of greatest score. *)
Theorem run_studio_report_best (rough_prompt : string) (creativity_level : Z)
  (model : string) (iterations : Z) (st st0 : State) (generated : list Dict.t) :
  generate_prompts rough_prompt creativity_level st = (Ok generated, st0) ->
  exists res st' st1 st2 i best output score before,
    run_studio rough_prompt creativity_level model iterations st = (Ok res, st')
    /\ first_best (prompts res) i best
    /\ Dict.output best = Some output
    /\ Dict.score best = Some score
    /\ refine_prompt (Dict.prompt best) output score st1
       = (Ok (refined_prompt res), st2)
    /\ report res
       = before ++ nl ++ highest_score_line score ++ nl
         ++ "Refinement improved the best prompt based on test feedback." ++ nl
         ++ "==================" ++ nl.
Proof.
  intros Hgen.
  destruct (run_studio_decomposed _ _ model iterations _ _ _ Hgen)
    as [outcomes [st1 [i [best [output [score [refined [st2 [report [st3
       [m [before [Htests [Hlen [Hlen' [Hfirst [Hout [Hscore [Hrefine [Hreport
       [Hm [Hline Hrun]]]]]]]]]]]]]]]]]]]]]].
  assert (m = score) by exact (first_best_highest _ _ _ _ _ Hfirst Hscore Hm).
  subst m.
  eexists _, _, st1, st2, i, best, output, score, before.
  split; [exact Hrun|]. simpl. auto.
Qed.

(** When every test call raises, every score is 0 and the prompt that is
    refined is the first one of the generate stage, with its error string
    as output. *)
Theorem run_studio_all_tests_fail (rough_prompt : string)
  (creativity_level : Z) (model : string) (iterations : Z) (st st0 st1 : State)
  (generated : list Dict.t) (outcomes : list (result string)) :
  generate_prompts rough_prompt creativity_level st = (Ok generated, st0) ->
  run_tests model iterations generated st0 = (outcomes, st1) ->
  Forall (fun r => exists e, r = Raise e) outcomes ->
  exists res st' p e st2,
    run_studio rough_prompt creativity_level model iterations st = (Ok res, st')
    /\ Forall (fun p => Dict.score p = Some 0) (prompts res)
    /\ nth_error generated 0 = Some p
    /\ nth_error outcomes 0 = Some (Raise e)
    /\ refine_prompt (Dict.prompt p) ("Error: " ++ e) 0 st1
       = (Ok (refined_prompt res), st2).
Proof.
  intros Hgen Htests Hfail.
  destruct (run_studio_decomposed _ _ model iterations _ _ _ Hgen)
    as [outcomes' [st1' [i [best [output [score [refined [st2 [report [st3
       [m [before [Htests' [Hlen [Hlen' [Hfirst [Hout [Hscore [Hrefine [Hreport
       [Hm [Hline Hrun]]]]]]]]]]]]]]]]]]]]]].
  rewrite Htests in Htests'. inversion Htests'; subst outcomes' st1'.
  assert (Hzero : Forall (fun p => Dict.score p = Some 0)
                         (tested_prompts generated outcomes)).
  { clear - Hfail. unfold tested_prompts. revert generated.
    induction Hfail as [|r rs [e ->] _ IH]; intros [|p l]; simpl;
      constructor; auto. }
  destruct generated as [|p generated]; [discriminate|].
  destruct outcomes as [|r outcomes]; [discriminate|].
  inversion Hfail as [|? ? [e He] _]; subst.
  destruct Hfirst as [Hnth [sb [Hsb Hall]]].
  assert (Hbz : Dict.score best = Some 0).
  { apply nth_error_In in Hnth.
    exact (proj1 (Forall_forall _ _) Hzero best Hnth). }
  assert (sb = 0) by congruence. subst sb.
  assert (Hi : i = 0%nat).
  { destruct i as [|i]; [reflexivity|].
    destruct (Hall 0%nat (tested p (Raise e)) 0 eq_refl eq_refl) as [_ Hlt].
    specialize (Hlt ltac:(lia)). lia. }
  subst i. simpl in Hnth. inversion Hnth; subst best.
  simpl in Hout, Hscore. inversion Hout; inversion Hscore; subst.
  eexists _, _, p, e, st2.
  split; [exact Hrun|]. simpl. auto.
Qed.

(** *** The refiner when the call returns *)

Lemma strip_spaces (s : string) : string_forall isspace s = true -> strip s = "".
Proof. intros Hs. unfold strip. now rewrite lstrip_spaces. Qed.

(** When the call of the model returns, [refine_prompt] returns the response
    stripped of the whitespace around it, after one request to the first
    model of the registry.  A response of whitespace only is not replaced by
    the original prompt: the refined prompt is then the empty string. *)
Theorem refine_prompt_success (prompt output : string) (score : Z) (st : State)
  (model : string) (rest : list string) (client : Client) (w1 w2 : World)
  (response : string) :
  MODEL_CONFIG_keys = model :: rest ->
  get_model_client model (world st) = (Ok client, w1) ->
  complete client (refine_meta_prompt prompt output score) w1
  = (Ok response, w2) ->
  refine_prompt prompt output score st
  = (Ok (strip response),
     {| world := w2;
        requests := requests st
                    ++ [(client, refine_meta_prompt prompt output score)] |})
  /\ strip (strip response) = strip response
  /\ (string_forall isspace response = true -> strip response = "").
Proof.
  intros Hkeys Hclient Hcall. split; [|split].
  - unfold refine_prompt, try_except, bind, first_model, mc_get_model_client,
      client_complete.
    rewrite Hkeys. unfold ret at 1. rewrite Hclient. simpl. rewrite Hcall.
    reflexivity.
  - apply strip_idem.
  - apply strip_spaces.
Qed.

(** *** The requests of a test *)

Lemma test_loop_requests (client : Client) (prompt : string) (n : nat) :
  forall i outputs st,
  exists k,
    (k <= n)%nat
    /\ requests (snd (test_loop client prompt n i outputs st))
       = (requests st ++ repeat (client, prompt) k)%list.
Proof.
  induction n as [|n IH]; intros i outputs st; simpl.
  - exists 0%nat. split; [lia|]. simpl. now rewrite app_nil_r.
  - unfold bind at 1, client_complete.
    destruct (complete client prompt (world st)) as [[o | e] w1].
    + match goal with
      | |- context [test_loop client prompt n ?j ?outs ?s] =>
          destruct (IH j outs s) as [k [Hk Hr]]
      end.
      exists (S k). split; [lia|]. rewrite Hr. simpl. now rewrite <- app_assoc.
    + exists 1%nat. split; [lia|]. reflexivity.
Qed.

Lemma test_prompt_unfold (prompt model : string) (iterations : Z) (st : State) :
  test_prompt prompt model iterations st
  = match get_model_client model (world st) with
    | (Raise e, w1) => (Raise e, {| world := w1; requests := requests st |})
    | (Ok client, w1) =>
        match test_loop client prompt (Z.to_nat iterations) 0 []
                {| world := w1; requests := requests st |} with
        | (Ok outs, st') => (Ok (join nl outs), st')
        | (Raise e, st') => (Raise e, st')
        end
    end.
Proof.
  unfold test_prompt. rewrite try_except_reraise.
  unfold bind, mc_get_model_client.
  destruct (get_model_client model (world st)) as [[client | e] w1];
    [|reflexivity].
  now destruct (test_loop client prompt (Z.to_nat iterations) 0 [] _)
    as [[outs | e] st'].
Qed.

(** Whatever the collaborators do, a test sends at most [iterations]
    requests (none when [iterations] is not positive), all to the same
    client and all with the prompt under test, unchanged. *)
Theorem test_prompt_requests (prompt model : string) (iterations : Z)
  (st : State) :
  requests (snd (test_prompt prompt model iterations st)) = requests st
  \/ exists client k,
       (1 <= k)%nat /\ Z.of_nat k <= iterations
       /\ requests (snd (test_prompt prompt model iterations st))
          = (requests st ++ repeat (client, prompt) k)%list.
Proof.
  rewrite test_prompt_unfold.
  destruct (get_model_client model (world st)) as [[client | e] w1];
    [|now left].
  destruct (test_loop_requests client prompt (Z.to_nat iterations) 0 []
              {| world := w1; requests := requests st |}) as [k [Hk Hr]].
  simpl in Hr.
  destruct (test_loop client prompt (Z.to_nat iterations) 0 []
              {| world := w1; requests := requests st |}) as [[outs | e] st'];
    simpl in *.
  - destruct k as [|k]; [left; now rewrite Hr, app_nil_r|].
    right. exists client, (S k). repeat split; [lia | lia | exact Hr].
  - destruct k as [|k]; [left; now rewrite Hr, app_nil_r|].
    right. exists client, (S k). repeat split; [lia | lia | exact Hr].
Qed.

End EngineExtras.


(** ** The words of a test output *)

Lemma runs_from_separator (p : ascii -> bool) (c : ascii) (b : string) :
  p c = false ->
  forall a word,
    List.length (runs_from p word (a ++ String c b))
    = (List.length (runs_from p word a) + List.length (runs_from p "" b))%nat.
Proof.
  intros Hc. induction a as [|d a IH]; intros word; simpl.
  - rewrite Hc. now destruct word.
  - destruct (p d); [apply IH|].
    destruct word; simpl; now rewrite IH.
Qed.

Lemma word_count_separator (a b : string) (c : ascii) :
  isspace c = true ->
  word_count (a ++ String c b) = word_count a + word_count b.
Proof.
  intros Hc. unfold word_count, split, runs.
  rewrite runs_from_separator by (now rewrite Hc). lia.
Qed.

Lemma runs_from_one (p : ascii -> bool) (s : string) :
  string_forall p s = true ->
  forall word, word <> "" \/ s <> "" ->
               List.length (runs_from p word s) = 1%nat.
Proof.
  induction s as [|c s IH]; intros Hs word Hne; simpl.
  - destruct word; [destruct Hne; congruence | reflexivity].
  - simpl in Hs. apply andb_prop in Hs. destruct Hs as [Hc Hs].
    rewrite Hc. apply IH; [exact Hs|]. left. apply append_char_nonempty.
Qed.

Lemma word_count_one (s : string) :
  s <> "" -> string_forall (fun c => negb (isspace c)) s = true ->
  word_count s = 1.
Proof.
  intros Hne Hs. unfold word_count, split, runs.
  rewrite (runs_from_one _ s Hs "") by (now right). reflexivity.
Qed.

Lemma string_forall_append (p : ascii -> bool) (a b : string) :
  string_forall p (a ++ b) = string_forall p a && string_forall p b.
Proof.
  induction a as [|c a IH]; simpl; [reflexivity|].
  now rewrite IH, andb_assoc.
Qed.

Lemma string_of_uint_no_space (d : Decimal.uint) :
  string_forall (fun c => negb (isspace c)) (NilEmpty.string_of_uint d) = true.
Proof. induction d; simpl; auto. Qed.

(** The decimal writing of an integer is one word. *)
Lemma str_one_word (n : Z) :
  str n <> ""
  /\ string_forall (fun c => negb (isspace c)) (str n) = true.
Proof.
  unfold str. destruct (Z.to_int n) as [d | d]; simpl.
  - destruct d; simpl; split; try discriminate; try reflexivity;
      apply string_of_uint_no_space.
  - destruct d; simpl; split; try discriminate; try reflexivity;
      apply string_of_uint_no_space.
Qed.

Lemma word_count_label (i : Z) (output : string) :
  word_count ("Iteration " ++ str i ++ ": " ++ output) = 2 + word_count output.
Proof.
  change ("Iteration " ++ str i ++ ": " ++ output)
    with ("Iteration" ++ String " " (str i ++ ": " ++ output)).
  rewrite word_count_separator by reflexivity.
  replace (str i ++ ": " ++ output)
    with ((str i ++ ":") ++ String " " output)
    by (now rewrite append_assoc).
  rewrite word_count_separator by reflexivity.
  destruct (str_one_word i) as [Hne Hs].
  rewrite (word_count_one (str i ++ ":")).
  - change (word_count "Iteration") with 1. lia.
  - destruct (str i); [congruence | discriminate].
  - now rewrite string_forall_append, Hs.
Qed.

Lemma join_cons (sep x y : string) (l : list string) :
  join sep (x :: y :: l) = x ++ sep ++ join sep (y :: l).
Proof. reflexivity. Qed.

Lemma word_count_labelled_from (outputs : list string) :
  forall start,
    word_count
      (join nl (map (fun '(i, output) => "Iteration " ++ str i ++ ": " ++ output)
                    (enumerate outputs start)))
    = 2 * Z.of_nat (List.length outputs) + total (map word_count outputs).
Proof.
  induction outputs as [|o l IH]; intros start; [reflexivity|].
  cbn [enumerate map].
  destruct l as [|o' l].
  - cbn [enumerate map join]. rewrite word_count_label.
    unfold total. cbn [List.length map fold_right]. lia.
  - specialize (IH (start + 1)). cbn [enumerate map] in IH |- *.
    rewrite join_cons. unfold nl at 1.
    change (String (ascii_of_N 10) "" ++ ?x) with (String (ascii_of_N 10) x).
    rewrite word_count_separator by reflexivity.
    rewrite word_count_label, IH.
    unfold total. cbn [List.length map fold_right].
    rewrite !Nat2Z.inj_succ. lia.
Qed.

(** The labels count as words of the output that is scored: the aggregated
    output of a test has two words per iteration (the label "Iteration" and
    the number with its colon) besides the words of the model's outputs. *)
Lemma word_count_labelled (outputs : list string) :
  word_count (join nl (labelled outputs))
  = 2 * Z.of_nat (List.length outputs) + total (map word_count outputs).
Proof. apply word_count_labelled_from. Qed.


Section EngineWords.

Context `{Collaborators}.

(** The output of a test that is scored has two words per iteration besides
    the words of the model's outputs: the label "Iteration" and the number
    with its colon count as words. *)
Theorem test_prompt_word_count (prompt model : string) (st : State)
  (client : Client) (w1 w2 : World) (n : nat) (outs : list string) :
  get_model_client model (world st) = (Ok client, w1) ->
  complete_all client prompt n w1 = (Ok outs, w2) ->
  exists output st',
    test_prompt prompt model (Z.of_nat n) st = (Ok output, st')
    /\ word_count output = 2 * Z.of_nat n + total (map word_count outs).
Proof.
  intros Hclient Hall.
  rewrite test_prompt_unfold, Hclient, Nat2Z.id.
  rewrite (test_loop_complete_all client prompt n 0 [] _ outs w2) by exact Hall.
  eexists _, _. split; [reflexivity|].
  rewrite app_nil_l. change (0 + 1) with 1.
  rewrite (word_count_labelled_from outs 1).
  now rewrite (complete_all_length _ _ _ _ _ _ Hall).
Qed.

End EngineWords.

(** ** The properties at concrete inputs *)

Lemma run_studio_isolates_failure_witness :
  exists res st',
    @run_studio scripted "Write a blog about AI trends" 8 "model-b" 1
      failing_second_test = (Ok res, st')
    /\ List.length (prompts res) = 4%nat
    /\ (exists p, nth_error (parse_response canonical_response) 1 = Some p
                  /\ nth_error (prompts res) 1
                     = Some (Dict.set_output_score p
                               ("Error: " ++ "rate limit exceeded") 0)).
Proof.
  destruct (@run_studio_isolates_failure scripted
              "Write a blog about AI trends" 8 "model-b" 1
              failing_second_test
              (@Build_State scripted
                 [Ok "AI trends in 2025. Agents, small models, and regulation!";
                  Raise "rate limit exceeded";
                  Ok "c is for compute. d is for data.";
                  Ok "lorem ipsum";
                  Ok "  Write a 500-word blog on AI trends.  "]
                 [("model-a",
                   generate_meta_prompt "Write a blog about AI trends" 8)])
              (@Build_State scripted
                 [Ok "  Write a 500-word blog on AI trends.  "]
                 [("model-a",
                   generate_meta_prompt "Write a blog about AI trends" 8);
                  ("model-b", "a 2."); ("model-b", "b 3.");
                  ("model-b", "c 4."); ("model-b", "d")])
              (parse_response canonical_response)
              [Ok ("Iteration 1: "
                   ++ "AI trends in 2025. Agents, small models, and regulation!");
               Raise "rate limit exceeded";
               Ok ("Iteration 1: " ++ "c is for compute. d is for data.");
               Ok ("Iteration 1: " ++ "lorem ipsum")]
              1%nat "rate limit exceeded")
    as [res [st' [Hrun [Hlen [Hfailed _]]]]].
  - vm_compute. reflexivity.
  - vm_compute. reflexivity.
  - reflexivity.
  - intros [|[|[|[|j]]]] r Hj Hr; simpl in Hr; try congruence;
      try (inversion Hr; subst; eauto).
    now destruct j.
  - exists res, st'. auto.
Defined.

Lemma parse_response_canonical_witness :
  map Dict.prompt (parse_response canonical_response)
  = ["a 2."; "b 3."; "c 4."; "d"].
Proof.
  rewrite (parse_response_canonical "1. " " a 2. " " b 3. " " c 4. " " d"
             canonical_response);
    [reflexivity | reflexivity | vm_compute; reflexivity
    | vm_compute; reflexivity | vm_compute; reflexivity
    | vm_compute; reflexivity].
Defined.

Lemma score_output_deterministic_witness :
  score_output hundred_words "blog about AI trends now"
  = score_output hundred_words "blog about AI trends now"
  /\ 0 <= score_output hundred_words "blog about AI trends now" <= 100.
Proof.
  exact (score_output_deterministic hundred_words "blog about AI trends now"
           _ _ eq_refl eq_refl).
Defined.

Lemma refine_prompt_fallback_witness :
  @refine_prompt scripted "Write a poem" "Iteration 1: roses" 40 failing_call
  = (Ok "Write a poem",
     @Build_State scripted []
       [("model-a", refine_meta_prompt "Write a poem" "Iteration 1: roses" 40)]).
Proof.
  apply (proj2 (@refine_prompt_fallback scripted "Write a poem"
                  "Iteration 1: roses" 40 failing_call)
           "model-a" ["model-b"] "model-a" [Raise "timeout"] "timeout" []);
    reflexivity.
Defined.

Lemma score_output_ninety_witness :
  word_count hundred_words = 100
  /\ score_output hundred_words "blog about AI trends now" = 30 + 10 + 30 + 20.
Proof.
  split; [vm_compute; reflexivity|].
  apply score_output_ninety.
  - vm_compute. reflexivity.
  - vm_compute. reflexivity.
  - intros w Hin Hw.
    assert (Hs : search_words banned_words (lower hundred_words) = true)
      by (apply (search_words_spec _ banned_words_proper); eauto).
    vm_compute in Hs. discriminate.
  - vm_compute. reflexivity.
Defined.

Lemma generate_prompts_request_phrase_witness :
  contains (generate_meta_prompt "Write a blog about AI trends" 8)
           "highly creative and innovative"
  /\ contains (generate_meta_prompt "Write a blog about AI trends" 3)
              "clear and straightforward".
Proof.
  split.
  - apply (proj1 (proj2 (@generate_prompts_request_phrase scripted
                           "Write a blog about AI trends" 8 two_answers))).
    reflexivity.
  - apply (proj2 (proj2 (@generate_prompts_request_phrase scripted
                           "Write a blog about AI trends" 3 two_answers))).
    discriminate.
Defined.

Lemma generate_report_highest_score_witness :
  exists report st' before,
    @generate_report scripted "idea" scored_prompts "refined" two_answers
    = (Ok report, st')
    /\ report
       = before ++ nl ++ highest_score_line 70 ++ nl
         ++ "Refinement improved the best prompt based on test feedback." ++ nl
         ++ "==================" ++ nl.
Proof.
  destruct (@generate_report_highest_score scripted "idea" scored_prompts
              "refined" two_answers)
    as [report [st' [m [before [Hreport [[[p [Hin Hp]] Hmax] Hline]]]]]].
  - discriminate.
  - reflexivity.
  - assert (Hm : m = 70).
    { assert (70 <= m)
        by (apply (Hmax (Dict.mk 3 "Structured" "c" (Some "Iteration 1: y")
                           (Some 70)));
            [simpl; tauto | reflexivity]).
      simpl in Hin.
      destruct Hin as [<- | [<- | [<- | [<- | []]]]]; simpl in Hp;
        inversion Hp; subst; lia. }
    subst m. exists report, st', before. auto.
Defined.

Lemma test_prompt_iterations_witness :
  @test_prompt scripted "Say hi" "model-a" 0 two_answers
  = (Ok "", two_answers)
  /\ @test_prompt scripted "Say hi" "model-a" 2 two_answers
     = (Ok ("Iteration 1: hi" ++ nl ++ "Iteration 2: hello"),
        @Build_State scripted []
          [("model-a", "Say hi"); ("model-a", "Say hi")]).
Proof.
  destruct (@test_prompt_iterations scripted "Say hi" "model-a" two_answers
              "model-a" [Ok "hi"; Ok "hello"] eq_refl) as [Hzero Hgen].
  split; [exact Hzero|].
  exact (Hgen 2%nat ["hi"; "hello"] [] eq_refl).
Defined.

Lemma score_output_banned_witness :
  clarity_points "Error: timeout" <= 30
  /\ score_output "Error: timeout" "Fix the timeout" <= 80.
Proof.
  apply (score_output_banned "Error: timeout" "Fix the timeout" "error").
  - simpl. tauto.
  - exists "", ": timeout". repeat split.
Defined.

Lemma score_output_short_witness : score_output "too short" "a long prompt" <= 40.
Proof.
  apply score_output_short. vm_compute. discriminate.
Defined.

Lemma relevance_points_no_keyword_witness :
  relevance_points "some output" "?!" = 0
  /\ score_output "some output" "?!" <= 60.
Proof.
  apply relevance_points_no_keyword. reflexivity.
Defined.

Lemma score_output_case_insensitive_witness :
  score_output "AI Trends. More!" "Blog about AI"
  = score_output "ai trends. more!" "BLOG ABOUT ai".
Proof.
  apply score_output_case_insensitive; reflexivity.
Defined.

Lemma parse_response_out_of_order_witness :
  nth_error (parse_response swapped_response) 0
  = Some (sentinel_prompt 1 "Concise").
Proof.
  apply (parse_response_out_of_order swapped_response 0 "Concise" "Detailed").
  - simpl. tauto.
  - vm_compute. split; discriminate.
Defined.

Lemma parse_response_whitespace_witness :
  parse_response "   "
  = [sentinel_prompt 1 "Concise"; sentinel_prompt 2 "Detailed";
     sentinel_prompt 3 "Structured"; sentinel_prompt 4 "Creative"].
Proof.
  apply parse_response_whitespace. reflexivity.
Defined.

Lemma test_prompt_failure_witness :
  @test_prompt scripted "Say hi" "model-a" 3 answer_then_failure
  = (Raise "timeout",
     @Build_State scripted [Ok "never asked"]
       [("model-a", "Say hi"); ("model-a", "Say hi")]).
Proof.
  apply (@test_prompt_failure scripted "Say hi" "model-a" 3 answer_then_failure
           "model-a" [Ok "hi"; Raise "timeout"; Ok "never asked"]
           [Raise "timeout"; Ok "never asked"] [Ok "never asked"]
           1%nat ["hi"] "timeout"); reflexivity.
Defined.

Lemma test_prompt_no_iteration_witness :
  @test_prompt scripted "Say hi" "model-a" (-2) two_answers
  = (Ok "", two_answers).
Proof.
  destruct (@test_prompt_no_iteration scripted "Say hi" "model-a" (-2)
              two_answers) as [_ Hreturn].
  - vm_compute. discriminate.
  - exact (Hreturn "model-a" [Ok "hi"; Ok "hello"] eq_refl).
Defined.

Lemma run_studio_generation_fatal_witness :
  @run_studio scripted "idea" 5 "model-b" 1 failing_call
  = (Raise "timeout",
     @Build_State scripted [] [("model-a", generate_meta_prompt "idea" 5)]).
Proof.
  exact (proj2 (proj2 (@run_studio_generation_fatal scripted "idea" 5 "model-b" 1
                         failing_call)
                  "model-a" ["model-b"] eq_refl)
           "model-a" [Raise "timeout"] "timeout" [] eq_refl eq_refl).
Defined.

Lemma generate_report_closed_form_witness :
  exists m,
    highest_score scored_prompts m
    /\ @generate_report scripted "idea" scored_prompts "refined" two_answers
       = (Ok (report_header "2025-01-01T00:00:00" "idea"
              ++ join "" (map block_of scored_prompts)
              ++ report_footer "refined" 4 "Concise, Detailed, Structured, Creative"
                   m),
          two_answers).
Proof.
  apply (@generate_report_closed_form scripted "idea" scored_prompts "refined"
           two_answers "2025-01-01T00:00:00" [Ok "hi"; Ok "hello"]).
  - discriminate.
  - reflexivity.
  - reflexivity.
Defined.

Lemma run_studio_returns_witness :
  exists res st',
    @run_studio scripted "Write a blog about AI trends" 8 "model-b" 1
      failing_second_test = (Ok res, st')
    /\ map (fun p => (Dict.id p, Dict.style p)) (prompts res)
       = [(1, "Concise"); (2, "Detailed"); (3, "Structured"); (4, "Creative")].
Proof.
  destruct (@run_studio_returns scripted "Write a blog about AI trends" 8
              "model-b" 1 failing_second_test
              (snd (@generate_prompts scripted "Write a blog about AI trends" 8
                      failing_second_test))
              (parse_response canonical_response))
    as [res [st' [Hrun [Hids _]]]].
  - vm_compute. reflexivity.
  - exists res, st'. auto.
Defined.

Lemma run_studio_report_best_witness :
  exists res st',
    @run_studio scripted "Write a blog about AI trends" 8 "model-b" 1
      failing_second_test = (Ok res, st')
    /\ exists i best score before,
         first_best (prompts res) i best
         /\ Dict.score best = Some score
         /\ report res
            = before ++ nl ++ highest_score_line score ++ nl
              ++ "Refinement improved the best prompt based on test feedback."
              ++ nl ++ "==================" ++ nl.
Proof.
  destruct (@run_studio_report_best scripted "Write a blog about AI trends" 8
              "model-b" 1 failing_second_test
              (snd (@generate_prompts scripted "Write a blog about AI trends" 8
                      failing_second_test))
              (parse_response canonical_response))
    as [res [st' [st1 [st2 [i [best [output [score [before
       [Hrun [Hfirst [Hout [Hscore [Hrefine Hreport]]]]]]]]]]]]]].
  - vm_compute. reflexivity.
  - exists res, st'. split; [exact Hrun|].
    exists i, best, score, before. auto.
Defined.

Lemma run_studio_all_tests_fail_witness :
  exists res st',
    @run_studio scripted "Write a blog about AI trends" 3 "model-b" 1
      failing_tests = (Ok res, st')
    /\ Forall (fun p => Dict.score p = Some 0) (prompts res).
Proof.
  destruct (@run_studio_all_tests_fail scripted "Write a blog about AI trends" 3
              "model-b" 1 failing_tests
              (snd (@generate_prompts scripted "Write a blog about AI trends" 3
                      failing_tests))
              (snd (@run_tests scripted "model-b" 1
                      (parse_response canonical_response)
                      (snd (@generate_prompts scripted
                              "Write a blog about AI trends" 3 failing_tests))))
              (parse_response canonical_response)
              [Raise "rate limit exceeded"; Raise "timeout"; Raise "timeout";
               Raise "bad gateway"])
    as [res [st' [p [e [st2 [Hrun [Hzero _]]]]]]].
  - vm_compute. reflexivity.
  - vm_compute. reflexivity.
  - repeat constructor; eauto.
  - exists res, st'. auto.
Defined.

Lemma refine_prompt_success_witness :
  @refine_prompt scripted "Write a poem" "Iteration 1: roses" 40
    (@Build_State scripted [Ok "  Write a sonnet about roses.  "] [])
  = (Ok "Write a sonnet about roses.",
     @Build_State scripted []
       [("model-a", refine_meta_prompt "Write a poem" "Iteration 1: roses" 40)]).
Proof.
  exact (proj1 (@refine_prompt_success scripted "Write a poem"
                  "Iteration 1: roses" 40
                  (@Build_State scripted [Ok "  Write a sonnet about roses.  "] [])
                  "model-a" ["model-b"] "model-a"
                  [Ok "  Write a sonnet about roses.  "] []
                  "  Write a sonnet about roses.  " eq_refl eq_refl eq_refl)).
Defined.

Lemma test_prompt_word_count_witness :
  exists output st',
    @test_prompt scripted "Say hi" "model-a" 2 two_answers = (Ok output, st')
    /\ word_count output = 2 * 2 + total [1; 1].
Proof.
  exact (@test_prompt_word_count scripted "Say hi" "model-a" two_answers
           "model-a" [Ok "hi"; Ok "hello"] [] 2%nat ["hi"; "hello"]
           eq_refl eq_refl).
Defined.
